(** * Numerical ODE solver ([ode_solver.py]): a shallow embedding

    The Python class [Solver] integrates dy/dx = f(x, y) with Euler and
    Runge-Kutta schemes and offers [compare], which evaluates textual method
    calls.  The embedding keeps the structure of the source:

    - Python exceptions are values of [exn]; a computation that may raise is
      a [result], sequenced with a small error monad;
    - the arithmetic of Python floats is an interface ([PyFloat]) with one
      executable instance, IEEE binary64 ([PrimFloat]), the arithmetic the
      program runs on.  What depends on the loops only is proved for the
      interface; what depends on rounding, NaN or infinities is proved on
      binary64 through the specification of its operations;
    - numpy arrays are lists read and written by index, with Python's bounds
      checks written out;
    - [compare] threads the dictionary of results and the calls made to the
      plotting library. *)

From Stdlib Require Import ZArith QArith Qabs Qround Qreduction Qpower.
From Stdlib Require Import PrimFloat SpecFloat FloatOps FloatAxioms.
From Stdlib Require Import Lia Lqa String Ascii.
From stdpp Require Import base list strings.

Local Open Scope Z_scope.

(** ** Exceptions and the error monad *)

Inductive exn : Type :=
| ZeroDivisionError             (* Python [/] with a zero divisor *)
| OverflowError                 (* [int] of an infinity *)
| ValueError                    (* [int] of a NaN; [linspace] with a negative count *)
| IndexError                    (* subscript out of range *)
| TypeError                     (* call of a non-callable, wrong arity, [*] on a non-iterable *)
| Exception (msg : string).     (* [raise Exception(msg)] *)

Inductive result (A : Type) : Type :=
| Ok (a : A)
| Raise (e : exn).
Arguments Ok {A} a.
Arguments Raise {A} e.

Definition bind {A B : Type} (m : result A) (k : A -> result B) : result B :=
  match m with
  | Ok a => k a
  | Raise e => Raise e
  end.

Declare Scope py_scope.
Delimit Scope py_scope with py.
Notation "x <- m ;; k" := (bind m (fun x => k))
  (at level 100, m at next level, right associativity) : py_scope.
Local Open Scope py_scope.

(** ** Float arithmetic as the program uses it *)

Class PyFloat (R : Type) : Type := {
  of_Z : Z -> R;               (* an int used where a float is expected *)
  fadd : R -> R -> R;
  fsub : R -> R -> R;
  fmul : R -> R -> R;
  fdiv : R -> R -> R;          (* the quotient, divisor known to be nonzero *)
  fabs : R -> R;               (* np.abs *)
  fis_zero : R -> bool;        (* x == 0 *)
  to_int : R -> result Z       (* int(x): truncation toward zero *)
}.

Section Integrator.
Context {R : Type} `{PyFloat R}.

(** Python's [a / b] on floats and ints: a zero divisor raises. *)
Definition truediv (a b : R) : result R :=
  if fis_zero b then Raise ZeroDivisionError else Ok (fdiv a b).

(** Subscripts on arrays: [a[i]] and [a[i] = v] for [0 <= i]. *)
Definition getitem (a : list R) (i : nat) : result R :=
  match a !! i with
  | Some v => Ok v
  | None => Raise IndexError
  end.

Definition setitem (a : list R) (i : nat) (v : R) : result (list R) :=
  if decide (i < length a)%nat then Ok (<[i := v]> a) else Raise IndexError.

(** [for i in range(lo, hi): a = body i a], stopping at the first exception. *)
Fixpoint for_each {A : Type} (body : nat -> A -> result A) (idx : list nat) (a : A)
  : result A :=
  match idx with
  | [] => Ok a
  | i :: rest => a' <- body i a ;; for_each body rest a'
  end.

Definition range (lo hi : nat) : list nat := seq lo (hi - lo).

(** ** numpy

    [np.linspace(start, stop, num)] with its defaults ([endpoint=True]), as
    numpy computes it: [arange(0, num) * step + start] with
    [step = (stop - start) / (num - 1)], and the last sample overwritten by
    [stop].  [np.empty(n)] allocates [n] slots of unspecified content; zero
    stands for that content, the program writes every slot before reading
    it.  numpy refuses a count it cannot allocate; the lists here have no
    such limit. *)

Definition arange (num : Z) : list R :=
  map (fun k : nat => of_Z (Z.of_nat k)) (seq 0 (Z.to_nat num)).

Definition linspace (start stop : R) (num : Z) : result (list R) :=
  if num <? 0 then Raise ValueError
  else
    let div := num - 1 in
    let delta := fsub stop start in
    let y := arange num in
    let y :=
      if 0 <? div then
        let step := fdiv delta (of_Z div) in
        if fis_zero step
        then map (fun v => fmul (fdiv v (of_Z div)) delta) y
        else map (fun v => fmul v step) y
      else map (fun v => fmul v delta) y in
    let y := map (fun v => fadd v start) y in
    Ok (if 1 <? num then <[(length y - 1)%nat := stop]> y else y).

Definition np_empty (n : nat) : list R := replicate n (of_Z 0).

(** ** The class [Solver] *)

Record Solver : Type := {
  f : R -> R -> R;          (* self.f *)
  boundary : R * R;         (* self.boundary = [x0, y0] *)
  final_x : R;              (* self.final_x *)
  h : R                     (* self.h *)
}.

(** The third argument of every [np.linspace] call of the class:
    [int(np.abs((self.final_x - self.boundary[0])/self.h) + 1)]. *)
Definition sample_count (s : Solver) : result Z :=
  q <- truediv (fsub (final_x s) (boundary s).1) (h s) ;;
  to_int (fadd (fabs q) (of_Z 1)).

Definition euler (s : Solver) : result (list R * list R) :=
  n <- sample_count s ;;
  x <- linspace (boundary s).1 (final_x s) n ;;
  y <- setitem (np_empty (length x)) 0 (boundary s).2 ;;
  y <- for_each (fun i y =>
         yp <- getitem y (i - 1) ;;
         xp <- getitem x (i - 1) ;;
         setitem y i (fadd yp (fmul (f s xp yp) (h s))))
       (range 1 (length x)) y ;;
  Ok (x, y).

Definition runge2nd (s : Solver) (a2 : R) : result (list R * list R) :=
  let a1 := fsub (of_Z 1) a2 in
  p <- truediv (of_Z 1) (fmul (of_Z 2) a2) ;;
  let q := p in
  n <- sample_count s ;;
  x <- linspace (boundary s).1 (final_x s) n ;;
  y <- setitem (np_empty (length x)) 0 (boundary s).2 ;;
  y <- for_each (fun i y =>
         yp <- getitem y (i - 1) ;;
         xp <- getitem x (i - 1) ;;
         setitem y i
           (fadd yp
              (fmul
                 (fadd (fmul a1 (f s xp yp))
                       (fmul a2 (f s (fadd xp (fmul p (h s)))
                                    (fadd yp (fmul (fmul q (f s xp yp)) (h s))))))
                 (h s))))
       (range 1 (length x)) y ;;
  Ok (x, y).

Definition heun (s : Solver) : result (list R * list R) :=
  runge2nd s (fdiv (of_Z 1) (of_Z 2)).

Definition ralston (s : Solver) : result (list R * list R) :=
  runge2nd s (fdiv (of_Z 2) (of_Z 3)).

Definition midpoint (s : Solver) : result (list R * list R) :=
  runge2nd s (of_Z 1).

Definition classic4th (s : Solver) : result (list R * list R) :=
  n <- sample_count s ;;
  x <- linspace (boundary s).1 (final_x s) n ;;
  y <- setitem (np_empty (length x)) 0 (boundary s).2 ;;
  y <- for_each (fun i y =>
         xp <- getitem x (i - 1) ;;
         yp <- getitem y (i - 1) ;;
         let k1 := f s xp yp in
         let k2 := f s (fadd xp (fdiv (h s) (of_Z 2)))
                       (fadd yp (fdiv (fmul k1 (h s)) (of_Z 2))) in
         let k3 := f s (fadd xp (fdiv (h s) (of_Z 2)))
                       (fadd yp (fdiv (fmul k2 (h s)) (of_Z 2))) in
         let k4 := f s (fadd xp (h s)) (fadd yp (fmul k3 (h s))) in
         setitem y i
           (fadd yp
              (fmul
                 (fmul (fdiv (of_Z 1) (of_Z 6))
                       (fadd (fadd (fadd k1 (fmul (of_Z 2) k2)) (fmul (of_Z 2) k3)) k4))
                 (h s))))
       (range 1 (length x)) y ;;
  Ok (x, y).

End Integrator.
Arguments Solver R : clear implicits.

(** ** The arithmetic of the program *)

(** IEEE 754 binary64, the arithmetic of Python's [float] and numpy's
    [float64]. *)
Module Binary64.

Definition of_int (z : Z) : float :=
  SF2Prim (binary_normalize prec emax z 0 false).

Definition int_of (x : float) : result Z :=
  match Prim2SF x with
  | S754_zero _ => Ok 0
  | S754_infinity _ => Raise OverflowError
  | S754_nan => Raise ValueError
  | S754_finite sign m e =>
      let magnitude :=
        match e with
        | Z0 => Zpos m
        | Zpos k => Z.shiftl (Zpos m) (Zpos k)
        | Zneg k => Z.shiftr (Zpos m) (Zpos k)
        end in
      Ok (if sign then - magnitude else magnitude)
  end.

#[export] Instance float_PyFloat : PyFloat float := {
  of_Z := of_int;
  fadd := PrimFloat.add;
  fsub := PrimFloat.sub;
  fmul := PrimFloat.mul;
  fdiv := PrimFloat.div;
  fabs := PrimFloat.abs;
  fis_zero := fun x => PrimFloat.eqb x 0%float;
  to_int := int_of
}.

End Binary64.

(** ** [compare]: textual method calls

    [compare] (called with the labels as its arguments) checks every label against [dir(self)], then evaluates
    ['self.' + label] with Python's [eval], plots the value and stores it
    under the label.  [eval] is modelled on the labels the class documents,
    [name], [name()] and [name(arg)] with [arg] an integer literal or a
    quotient of two; other text is reported as outside the model ([None])
    and nothing is claimed about it. *)

(** [s.split(c)[0]] and the text after the first [c], if there is one. *)
Fixpoint split_once (c : ascii) (s : string) : string * option string :=
  match s with
  | EmptyString => (EmptyString, None)
  | String a rest =>
      if Ascii.eqb a c then (EmptyString, Some rest)
      else let '(before, after) := split_once c rest in (String a before, after)
  end.

Definition method_name (label : string) : string := (split_once "(" label).1.

Definition digit_value (c : ascii) : option Z :=
  let n := Z.of_nat (nat_of_ascii c) in
  if (48 <=? n) && (n <=? 57) then Some (n - 48) else None.

Fixpoint digits_value (s : string) (acc : Z) : option Z :=
  match s with
  | EmptyString => Some acc
  | String c rest =>
      match digit_value c with
      | Some d => digits_value rest (10 * acc + d)
      | None => None
      end
  end.

(** A decimal integer literal of Python 3: digits, no leading zero unless
    the literal is [0]. *)
Definition int_literal (s : string) : option Z :=
  match s with
  | EmptyString => None
  | String "0" (String _ _) => None
  | _ => digits_value s 0
  end.

Section Comparator.
Context {R : Type} `{PyFloat R}.

(** The names [dir] reports for an instance beyond those the class body and
    [__init__] define ([__class__], [__doc__], [__eq__], ...); the list
    depends on the version of Python. *)
Variable runtime_dir : list string.

Definition instance_attributes : list string := ["f"; "boundary"; "h"; "final_x"].

Definition class_attributes : list string :=
  ["__init__"; "euler"; "runge2nd"; "heun"; "ralston"; "midpoint";
   "classic4th"; "compare"].

Definition dir_self : list string :=
  instance_attributes ++ class_attributes ++ runtime_dir.

(** Values a label can evaluate to. *)
Inductive pyval : Type :=
| VFloat (r : R)                 (* self.h, self.final_x *)
| VBoundary (x0 y0 : R)          (* self.boundary, the list [x0, y0] *)
| VFunction                      (* self.f *)
| VMethod (name : string)        (* a bound method that was not called *)
| VSamples (x y : list R).       (* the tuple (x, y) an integration returns *)

Definition samples (r : result (list R * list R)) : result pyval :=
  xy <- r ;; Ok (VSamples xy.1 xy.2).

(** The argument list between the parentheses. *)
Definition eval_args (text : string) : option (result (list R)) :=
  match text with
  | EmptyString => Some (Ok [])
  | _ =>
      match split_once "/" text with
      | (num, None) =>
          match int_literal num with
          | Some a => Some (Ok [of_Z a])
          | None => None
          end
      | (num, Some den) =>
          match int_literal num, int_literal den with
          | Some a, Some b => Some (v <- truediv (of_Z a) (of_Z b) ;; Ok [v])
          | _, _ => None
          end
      end
  end.

(** [self.name] for the names the class itself defines; the values of the
    inherited attributes are outside the model. *)
Definition getattr (s : Solver R) (name : string) : option pyval :=
  if String.eqb name "f" then Some VFunction
  else if String.eqb name "boundary" then Some (VBoundary (boundary s).1 (boundary s).2)
  else if String.eqb name "h" then Some (VFloat (h s))
  else if String.eqb name "final_x" then Some (VFloat (final_x s))
  else if bool_decide (name ∈ class_attributes) then Some (VMethod name)
  else None.

Definition call (s : Solver R) (callee : pyval) (args : list R) : option (result pyval) :=
  match callee with
  | VFloat _ | VBoundary _ _ => Some (Raise TypeError)
  | VFunction => None
  | VSamples _ _ => Some (Raise TypeError)
  | VMethod name =>
      if String.eqb name "compare" then None
      else if String.eqb name "runge2nd" then
        match args with
        | [a2] => Some (samples (runge2nd s a2))
        | _ => Some (Raise TypeError)
        end
      else
        match args with
        | [] =>
            if String.eqb name "euler" then Some (samples (euler s))
            else if String.eqb name "heun" then Some (samples (heun s))
            else if String.eqb name "ralston" then Some (samples (ralston s))
            else if String.eqb name "midpoint" then Some (samples (midpoint s))
            else if String.eqb name "classic4th" then Some (samples (classic4th s))
            else Some (Raise TypeError)
        | _ => Some (Raise TypeError)
        end
  end.

(** [eval('self.' + label)]. *)
Definition py_eval (s : Solver R) (label : string) : option (result pyval) :=
  let '(name, rest) := split_once "(" label in
  match getattr s name with
  | None => None
  | Some v =>
      match rest with
      | None => Some (Ok v)
      | Some rest =>
          match split_once ")" rest with
          | (text, Some EmptyString) =>
              match eval_args text with
              | Some (Ok args) => call s v args
              | Some (Raise e) => Some (Raise e)
              | None => None
              end
          | _ => None
          end
      end
  end.

(** What the run does besides returning: labels handed to [eval], and the
    calls to matplotlib. *)
Inductive event : Type :=
| Evaluate (label : string)
| Plot (value : pyval) (label : string)
| Legend
| ShowFigure.

(** [plt.plot( *result, label=i)]: the value is unpacked into positional
    arguments, so it has to be iterable. *)
Definition plt_plot (value : pyval) (label : string) : result event :=
  match value with
  | VSamples _ _ | VBoundary _ _ => Ok (Plot value label)
  | VFloat _ | VFunction | VMethod _ => Raise TypeError
  end.

(** [results[k] = v] on a dict, which keeps the order of first insertion. *)
Fixpoint dict_set (d : list (string * pyval)) (k : string) (v : pyval)
  : list (string * pyval) :=
  match d with
  | [] => [(k, v)]
  | (k', v') :: rest =>
      if String.eqb k' k then (k, v) :: rest else (k', v') :: dict_set rest k v
  end.

(** The first loop of [compare]. *)
Fixpoint validate (args : list string) : result unit :=
  match args with
  | [] => Ok tt
  | i :: rest =>
      if bool_decide (method_name i ∈ dir_self) then validate rest
      else Raise (Exception ("There is no method called '" ++ i ++ "'"))
  end.

(** The second loop of [compare]. *)
Fixpoint evaluate (s : Solver R) (args : list string)
    (results : list (string * pyval)) (trace : list event)
  : option (result (list (string * pyval))) * list event :=
  match args with
  | [] => (Some (Ok results), trace)
  | i :: rest =>
      let trace := trace ++ [Evaluate i] in
      match py_eval s i with
      | None => (None, trace)
      | Some (Raise e) => (Some (Raise e), trace)
      | Some (Ok result) =>
          match plt_plot result i with
          | Raise e => (Some (Raise e), trace)
          | Ok drawn => evaluate s rest (dict_set results i result) (trace ++ [drawn])
          end
      end
  end.

Definition compare (s : Solver R) (args : list string)
  : option (result (list (string * pyval))) * list event :=
  match validate args with
  | Raise e => (Some (Raise e), [])
  | Ok _ =>
      match evaluate s args [] [] with
      | (Some (Ok results), trace) => (Some (Ok results), trace ++ [Legend; ShowFigure])
      | failed => failed
      end
  end.

End Comparator.
Arguments pyval R : clear implicits.
Arguments event R : clear implicits.

(** ** The schemes, as one family

    The six integration methods behind one name each, and the step formula
    of each with the step factor left open, so that the nominal [h] and the
    spacing of the grid can both be put in its place. *)

Section Schemes.
Context {R : Type} `{PyFloat R}.

Inductive scheme : Type :=
| Euler
| Runge2nd (a2 : R)
| Heun
| Ralston
| Midpoint
| Classic4th.

Definition run (s : Solver R) (m : scheme) : result (list R * list R) :=
  match m with
  | Euler => euler s
  | Runge2nd a2 => runge2nd s a2
  | Heun => heun s
  | Ralston => ralston s
  | Midpoint => midpoint s
  | Classic4th => classic4th s
  end.

Definition euler_rule (g : R -> R -> R) (step x y : R) : R :=
  fadd y (fmul (g x y) step).

Definition runge2nd_rule (g : R -> R -> R) (a2 step x y : R) : R :=
  let a1 := fsub (of_Z 1) a2 in
  let p := fdiv (of_Z 1) (fmul (of_Z 2) a2) in
  fadd y
    (fmul (fadd (fmul a1 (g x y))
                (fmul a2 (g (fadd x (fmul p step))
                            (fadd y (fmul (fmul p (g x y)) step)))))
          step).

Definition classic4th_rule (g : R -> R -> R) (step x y : R) : R :=
  let k1 := g x y in
  let k2 := g (fadd x (fdiv step (of_Z 2))) (fadd y (fdiv (fmul k1 step) (of_Z 2))) in
  let k3 := g (fadd x (fdiv step (of_Z 2))) (fadd y (fdiv (fmul k2 step) (of_Z 2))) in
  let k4 := g (fadd x step) (fadd y (fmul k3 step)) in
  fadd y
    (fmul (fmul (fdiv (of_Z 1) (of_Z 6))
                (fadd (fadd (fadd k1 (fmul (of_Z 2) k2)) (fmul (of_Z 2) k3)) k4))
          step).

Definition rule (g : R -> R -> R) (m : scheme) : R -> R -> R -> R :=
  match m with
  | Euler => euler_rule g
  | Runge2nd a2 => runge2nd_rule g a2
  | Heun => runge2nd_rule g (fdiv (of_Z 1) (of_Z 2))
  | Ralston => runge2nd_rule g (fdiv (of_Z 2) (of_Z 3))
  | Midpoint => runge2nd_rule g (of_Z 1)
  | Classic4th => classic4th_rule g
  end.

(** [Y] is advanced along [X] by [advance]: every sample after the first is
    [advance] of the previous pair. *)
Definition advances (advance : R -> R -> R) (X Y : list R) : Prop :=
  forall i : nat, (0 < i < length X)%nat ->
    exists xp yp, X !! (i - 1)%nat = Some xp /\ Y !! (i - 1)%nat = Some yp /\
                  Y !! i = Some (advance xp yp).

(** The spacing of the grid, [(x_final - x0)/(n - 1)]. *)
Definition spacing (s : Solver R) (n : Z) : R :=
  fdiv (fsub (final_x s) (boundary s).1) (of_Z (n - 1)).

(** The skeleton the three loops share: count, grid, first sample, loop. *)
Definition skeleton (s : Solver R)
    (body : list R -> nat -> list R -> result (list R)) : result (list R * list R) :=
  n <- sample_count s ;;
  x <- linspace (boundary s).1 (final_x s) n ;;
  y <- setitem (np_empty (length x)) 0 (boundary s).2 ;;
  y <- for_each (body x) (range 1 (length x)) y ;;
  Ok (x, y).

(** A loop body that reads the previous pair and writes slot [i]. *)
Definition writes (advance : R -> R -> R) (x : list R)
    (body : nat -> list R -> result (list R)) : Prop :=
  forall (i : nat) (y : list R) (xp yp : R),
    x !! (i - 1)%nat = Some xp -> y !! (i - 1)%nat = Some yp -> (i < length y)%nat ->
    body i y = Ok (<[i := advance xp yp]> y).

(** The grid of two samples or more: sample [k] is [k] scaled, shifted by
    [start], and the last one is [stop] itself. *)
Definition linspace_scale (start stop : R) (n : Z) : R -> R :=
  let step := fdiv (fsub stop start) (of_Z (n - 1)) in
  if fis_zero step
  then fun v => fmul (fdiv v (of_Z (n - 1))) (fsub stop start)
  else fun v => fmul v step.

(** The loop bodies of the three methods, set apart from their loops. *)
Definition euler_body (s : Solver R) (x : list R) (i : nat) (y : list R)
  : result (list R) :=
  yp <- getitem y (i - 1) ;;
  xp <- getitem x (i - 1) ;;
  setitem y i (fadd yp (fmul (f s xp yp) (h s))).

Definition runge2nd_body (s : Solver R) (a2 p : R) (x : list R) (i : nat) (y : list R)
  : result (list R) :=
  yp <- getitem y (i - 1) ;;
  xp <- getitem x (i - 1) ;;
  setitem y i
    (fadd yp
       (fmul
          (fadd (fmul (fsub (of_Z 1) a2) (f s xp yp))
                (fmul a2 (f s (fadd xp (fmul p (h s)))
                             (fadd yp (fmul (fmul p (f s xp yp)) (h s))))))
          (h s))).

Definition classic4th_body (s : Solver R) (x : list R) (i : nat) (y : list R)
  : result (list R) :=
  xp <- getitem x (i - 1) ;;
  yp <- getitem y (i - 1) ;;
  setitem y i (classic4th_rule (f s) (h s) xp yp).

(** The coefficient a scheme hands to [runge2nd], if it does. *)
Definition coefficient (m : scheme) : option R :=
  match m with
  | Euler | Classic4th => None
  | Runge2nd a2 => Some a2
  | Heun => Some (fdiv (of_Z 1) (of_Z 2))
  | Ralston => Some (fdiv (of_Z 2) (of_Z 3))
  | Midpoint => Some (of_Z 1)
  end.

(** [2*a2] is not zero, so that [p = 1/(2*a2)] is computed. *)
Definition admissible (m : scheme) : Prop :=
  forall a2, coefficient m = Some a2 -> fis_zero (fmul (of_Z 2) a2) = false.

End Schemes.
Arguments scheme R : clear implicits.

(** The one fact about zero the schemes rely on: doubling a zero gives a
    zero, so [2*a2] vanishes with [a2]. *)
Class PyFloatLaws (R : Type) `{PyFloat R} : Prop := {
  double_zero : forall a : R, fis_zero a = true -> fis_zero (fmul (of_Z 2) a) = true
}.

(** The count as the specification words it: the quotient rounded to the
    nearest integer (a fractional part of one half or more rounds up), plus
    one. *)
Definition round_nearest (q : Q) : Z := Qfloor (q + (1 # 2)).

Definition spec_sample_count (x0 x_final step : Q) : Z :=
  round_nearest (Qabs (x_final - x0) / Qabs step) + 1.

(** The operations of the integrator, as the specification lists them. *)
Definition operations : list string :=
  ["euler"; "runge2nd"; "heun"; "ralston"; "midpoint"; "classic4th"].

(** Sample problems: dy/dx = y through (0, 1). *)
Module Examples.

Definition growth (x_final step : float) : Solver float :=
  {| f := fun _ y => y; boundary := (0, 1)%float; final_x := x_final; h := step |}.

(** The names [dir] adds on CPython 3.10. *)
Definition cpython_dir : list string :=
  ["__class__"; "__delattr__"; "__dict__"; "__dir__"; "__doc__"; "__eq__";
   "__format__"; "__ge__"; "__getattribute__"; "__gt__"; "__hash__";
   "__init_subclass__"; "__le__"; "__lt__"; "__module__"; "__ne__"; "__new__";
   "__reduce__"; "__reduce_ex__"; "__repr__"; "__setattr__"; "__sizeof__";
   "__str__"; "__subclasshook__"; "__weakref__"].

End Examples.


(** ** Facts that hold in every arithmetic *)

Section Structure.
Context {R : Type} `{PyFloat R}.
Implicit Types (s : Solver R) (x y X Y : list R) (m : scheme R).

Lemma bind_ok {A B : Type} (c : result A) (k : A -> result B) (b : B) :
  bind c k = Ok b -> exists a, c = Ok a /\ k a = Ok b.
Proof. destruct c as [a|e]; simpl; [eauto | discriminate]. Qed.

Lemma length_arange (n : Z) : length (arange (R := R) n) = Z.to_nat n.
Proof. unfold arange. by rewrite length_map, length_seq. Qed.

Lemma linspace_length (a b : R) (n : Z) x :
  linspace a b n = Ok x -> 0 <= n /\ length x = Z.to_nat n.
Proof.
  unfold linspace. destruct (Z.ltb_spec n 0) as [Hneg|Hpos]; [discriminate|].
  intros [= <-]. split; [lia|].
  assert (Hlen : forall l : list R, length l = Z.to_nat n ->
            length (if 1 <? n then <[(length l - 1)%nat := b]> l else l) = Z.to_nat n).
  { intros l Hl. destruct (1 <? n); [by rewrite length_insert | done]. }
  apply Hlen. rewrite length_map.
  destruct (0 <? n - 1); [destruct (fis_zero _)|]; by rewrite length_map, length_arange.
Qed.

Lemma linspace_total (a b : R) (n : Z) :
  0 <= n -> exists x, linspace a b n = Ok x.
Proof.
  intros Hn. unfold linspace. destruct (Z.ltb_spec n 0); [lia | eauto].
Qed.

Lemma linspace_unfold (a b : R) (n : Z) :
  2 <= n ->
  linspace a b n =
  Ok (<[(Z.to_nat n - 1)%nat := b]>
        (map (fun k : nat => fadd (linspace_scale a b n (of_Z (Z.of_nat k))) a)
             (seq 0 (Z.to_nat n)))).
Proof.
  intros Hn. unfold linspace, linspace_scale, arange.
  rewrite (proj2 (Z.ltb_ge n 0)), (proj2 (Z.ltb_lt 0 (n - 1))), (proj2 (Z.ltb_lt 1 n))
    by lia.
  f_equal. destruct (fis_zero (fdiv (fsub b a) (of_Z (n - 1))));
    rewrite !length_map, length_seq, !map_map; reflexivity.
Qed.

Lemma linspace_last (a b : R) (n : Z) X :
  2 <= n -> linspace a b n = Ok X -> X !! (Z.to_nat n - 1)%nat = Some b.
Proof.
  intros Hn. rewrite linspace_unfold by done. intros [= <-].
  apply list_lookup_insert_eq. rewrite length_map, length_seq. lia.
Qed.

Lemma linspace_inner (a b : R) (n : Z) X (i : nat) :
  2 <= n -> linspace a b n = Ok X -> (i < Z.to_nat n - 1)%nat ->
  X !! i = Some (fadd (linspace_scale a b n (of_Z (Z.of_nat i))) a).
Proof.
  intros Hn. rewrite linspace_unfold by done. intros [= <-] Hi.
  rewrite list_lookup_insert_ne by lia.
  rewrite list_lookup_fmap, lookup_seq_lt by lia. reflexivity.
Qed.

Lemma linspace_one (a b : R) :
  linspace a b 1 = Ok [fadd (fmul (of_Z 0) (fsub b a)) a].
Proof. reflexivity. Qed.

(** The loop: started at [k] with the slots below [k] filled, it fills the
    rest and leaves the slots below [k] alone. *)
Lemma for_each_fills advance x body :
  writes advance x body ->
  forall (count k : nat) y,
    (1 <= k)%nat -> (k + count = length x)%nat -> length y = length x ->
    exists y',
      for_each body (seq k count) y = Ok y' /\
      length y' = length x /\
      (forall j : nat, (j < k)%nat -> y' !! j = y !! j) /\
      (forall i : nat, (k <= i < length x)%nat ->
         exists xp yp, x !! (i - 1)%nat = Some xp /\ y' !! (i - 1)%nat = Some yp /\
                       y' !! i = Some (advance xp yp)).
Proof.
  intros Hbody. induction count as [|count IH]; intros k y Hk Hsum Hlen.
  - exists y. simpl. repeat split; [done | lia].
  - destruct (lookup_lt_is_Some_2 x (k - 1)) as [xp Hxp]; [lia|].
    destruct (lookup_lt_is_Some_2 y (k - 1)) as [yp Hyp]; [lia|].
    simpl. rewrite (Hbody k y xp yp Hxp Hyp) by lia. simpl.
    destruct (IH (S k) (<[k := advance xp yp]> y)) as (y' & Hrun & Hlen' & Hlow & Hhigh);
      [lia | lia | by rewrite length_insert |].
    exists y'. split; [done|]. split; [done|].
    assert (Hat : y' !! k = Some (advance xp yp)).
    { rewrite Hlow by lia. apply list_lookup_insert_eq. lia. }
    assert (Hbelow : forall j : nat, (j < k)%nat -> y' !! j = y !! j).
    { intros j Hj. rewrite Hlow by lia. apply list_lookup_insert_ne. lia. }
    split; [done|].
    intros i Hi. destruct (decide (i = k)) as [->|Hne].
    + exists xp, yp. split; [done|]. split; [|done].
      rewrite Hbelow by lia. done.
    + apply Hhigh. lia.
Qed.

(** What the skeleton does, by the value of the sample count. *)
Lemma skeleton_raises s body e :
  sample_count s = Raise e -> skeleton s body = Raise e.
Proof. intros Hn. unfold skeleton. by rewrite Hn. Qed.

Lemma skeleton_returns s advance body (n : Z) :
  (forall x, writes advance x (body x)) ->
  sample_count s = Ok n -> 1 <= n ->
  exists X Y,
    skeleton s body = Ok (X, Y) /\
    linspace (boundary s).1 (final_x s) n = Ok X /\
    length X = Z.to_nat n /\ length Y = Z.to_nat n /\
    Y !! 0%nat = Some (boundary s).2 /\
    advances advance X Y.
Proof.
  intros Hbody Hcount Hn.
  destruct (linspace_total (boundary s).1 (final_x s) n) as [X HX]; [lia|].
  destruct (linspace_length _ _ _ _ HX) as [_ HlenX].
  set (y0 := <[0%nat := (boundary s).2]> (np_empty (length X))).
  assert (Hlen0 : length y0 = length X).
  { unfold y0, np_empty. by rewrite length_insert, length_replicate. }
  destruct (for_each_fills advance X (body X) (Hbody X) (length X - 1) 1 y0)
    as (Y & Hrun & HlenY & Hlow & Hhigh); [lia | lia | done |].
  exists X, Y. split.
  - unfold skeleton. rewrite Hcount. simpl. rewrite HX. simpl.
    unfold setitem. rewrite decide_True by (unfold np_empty; rewrite length_replicate; lia).
    simpl. fold y0. unfold range. rewrite Hrun. done.
  - split; [done|]. split; [done|]. split; [lia|]. split.
    + rewrite Hlow by lia. unfold y0. apply list_lookup_insert_eq.
      unfold np_empty. rewrite length_replicate. lia.
    + intros i Hi. apply Hhigh. lia.
Qed.

Lemma skeleton_inv s advance body X Y :
  (forall x, writes advance x (body x)) ->
  skeleton s body = Ok (X, Y) ->
  exists n : Z,
    sample_count s = Ok n /\ 1 <= n /\
    linspace (boundary s).1 (final_x s) n = Ok X /\
    length X = Z.to_nat n /\ length Y = Z.to_nat n /\
    Y !! 0%nat = Some (boundary s).2 /\
    advances advance X Y.
Proof.
  intros Hbody Hrun.
  destruct (sample_count s) as [n|e] eqn:Hcount;
    [| by rewrite (skeleton_raises s body e Hcount) in Hrun].
  exists n. split; [done|].
  assert (Hn : 1 <= n).
  { unfold skeleton in Hrun. rewrite Hcount in Hrun. simpl in Hrun.
    destruct (bind_ok _ _ _ Hrun) as (x & Hx & Hrest).
    destruct (linspace_length _ _ _ _ Hx) as [Hpos Hlen].
    destruct (bind_ok _ _ _ Hrest) as (y & Hy & _).
    unfold setitem in Hy. case_decide as Hlt; [|discriminate].
    unfold np_empty in Hlt. rewrite length_replicate in Hlt. lia. }
  split; [done|].
  destruct (skeleton_returns s advance body n Hbody Hcount Hn)
    as (X' & Y' & Hrun' & Hfacts).
  rewrite Hrun in Hrun'. by injection Hrun' as <- <-.
Qed.

Lemma euler_skeleton s : euler s = skeleton s (euler_body s).
Proof. reflexivity. Qed.

Lemma runge2nd_skeleton s a2 :
  runge2nd s a2 =
  (p <- truediv (of_Z 1) (fmul (of_Z 2) a2) ;; skeleton s (runge2nd_body s a2 p)).
Proof. reflexivity. Qed.

Ltac step_body :=
  intros i y xp yp Hx Hy Hi; unfold getitem, setitem;
  rewrite ?Hx, ?Hy; simpl; rewrite ?Hx, ?Hy; simpl;
  rewrite decide_True by done; reflexivity.

Lemma euler_body_writes s x :
  writes (euler_rule (f s) (h s)) x (euler_body s x).
Proof. unfold euler_body, euler_rule. step_body. Qed.

Lemma runge2nd_body_writes s a2 x :
  writes (runge2nd_rule (f s) a2 (h s)) x
         (runge2nd_body s a2 (fdiv (of_Z 1) (fmul (of_Z 2) a2)) x).
Proof. unfold runge2nd_body, runge2nd_rule. step_body. Qed.

Lemma classic4th_skeleton s : classic4th s = skeleton s (classic4th_body s).
Proof. reflexivity. Qed.

Lemma classic4th_body_writes s x :
  writes (classic4th_rule (f s) (h s)) x (classic4th_body s x).
Proof. unfold classic4th_body. step_body. Qed.

Lemma run_runge2nd m a2 s :
  coefficient m = Some a2 -> run s m = runge2nd s a2.
Proof. destruct m; intros [= <-]; reflexivity. Qed.

Lemma rule_runge2nd m a2 g :
  coefficient m = Some a2 -> rule g m = runge2nd_rule g a2.
Proof. destruct m; intros [= <-]; reflexivity. Qed.

Lemma runge2nd_admissible s a2 :
  fis_zero (fmul (of_Z 2) a2) = false ->
  runge2nd s a2 =
  skeleton s (runge2nd_body s a2 (fdiv (of_Z 1) (fmul (of_Z 2) a2))).
Proof. intros Hnz. rewrite runge2nd_skeleton. unfold truediv. by rewrite Hnz. Qed.

Lemma runge2nd_ok_admissible s a2 XY :
  runge2nd s a2 = Ok XY -> fis_zero (fmul (of_Z 2) a2) = false.
Proof.
  rewrite runge2nd_skeleton. unfold truediv.
  destruct (fis_zero (fmul (of_Z 2) a2)); [discriminate | done].
Qed.

(** Every scheme is the skeleton around its own formula taken at [h]. *)
Lemma run_skeleton s m :
  admissible m ->
  exists body, (forall x, writes (rule (f s) m (h s)) x (body x)) /\
               run s m = skeleton s body.
Proof.
  intros Hadm. destruct (coefficient m) as [a2|] eqn:Hco.
  - exists (runge2nd_body s a2 (fdiv (of_Z 1) (fmul (of_Z 2) a2))). split.
    + intros x. rewrite (rule_runge2nd m a2) by done. apply runge2nd_body_writes.
    + rewrite (run_runge2nd m a2) by done. apply runge2nd_admissible. by apply Hadm.
  - destruct m; try discriminate.
    + exists (euler_body s). split; [apply euler_body_writes | apply euler_skeleton].
    + exists (classic4th_body s). split;
        [apply classic4th_body_writes | apply classic4th_skeleton].
Qed.

Lemma run_ok_admissible s m XY : run s m = Ok XY -> admissible m.
Proof.
  intros Hrun a2 Hco. rewrite (run_runge2nd m a2) in Hrun by done.
  by apply runge2nd_ok_admissible in Hrun.
Qed.

Lemma run_inv s m X Y :
  run s m = Ok (X, Y) ->
  exists n : Z,
    sample_count s = Ok n /\ 1 <= n /\
    linspace (boundary s).1 (final_x s) n = Ok X /\
    length X = Z.to_nat n /\ length Y = Z.to_nat n /\
    Y !! 0%nat = Some (boundary s).2 /\
    advances (rule (f s) m (h s)) X Y.
Proof.
  intros Hrun.
  destruct (run_skeleton s m (run_ok_admissible s m _ Hrun)) as (body & Hbody & Heq).
  rewrite Heq in Hrun. by apply (skeleton_inv s _ body).
Qed.

Lemma run_returns s m (n : Z) :
  admissible m -> sample_count s = Ok n -> 1 <= n ->
  exists X Y,
    run s m = Ok (X, Y) /\
    linspace (boundary s).1 (final_x s) n = Ok X /\
    length X = Z.to_nat n /\ length Y = Z.to_nat n /\
    Y !! 0%nat = Some (boundary s).2 /\
    advances (rule (f s) m (h s)) X Y.
Proof.
  intros Hadm Hcount Hn.
  destruct (run_skeleton s m Hadm) as (body & Hbody & ->).
  by apply skeleton_returns.
Qed.

Lemma run_raises_count s m e :
  admissible m -> sample_count s = Raise e -> run s m = Raise e.
Proof.
  intros Hadm Hcount. destruct (run_skeleton s m Hadm) as (body & _ & ->).
  by apply skeleton_raises.
Qed.

End Structure.

Module Binary64Laws.
Import Binary64.

Lemma zero_is_zero (a : float) :
  PrimFloat.eqb a 0%float = true -> exists sign, Prim2SF a = S754_zero sign.
Proof.
  rewrite FloatAxioms.eqb_spec. destruct (Prim2SF a) as [sign|sign| |sign m e]; simpl; eauto;
    try discriminate; destruct sign; discriminate.
Qed.

#[export] Instance float_laws : PyFloatLaws float.
Proof.
  split. intros a Ha. simpl in *.
  destruct (zero_is_zero a Ha) as [sign Hsign].
  rewrite FloatAxioms.eqb_spec, FloatAxioms.mul_spec, Hsign. by destruct sign.
Qed.

End Binary64Laws.

(** Two different binary64 numbers are told apart by their decoding. *)
Ltac float_differ H :=
  apply (f_equal Prim2SF) in H; vm_compute in H; discriminate H.

Ltac sample_differ H :=
  apply (f_equal (fun o : option float => Prim2SF (default 0%float o))) in H;
  vm_compute in H; discriminate H.

(** ** The integration methods *)

Section MethodTheorems.
Context {R : Type} `{PyFloat R}.
Implicit Types (s : Solver R) (X Y : list R) (m : scheme R).

(** C1 (as the code has it): for every integration method, the step factor
    that advances Y[i] from Y[i-1] is the nominal step size h given at
    construction: each sample after the first is the scheme's formula
    applied to (X[i-1], Y[i-1]) with step h, whatever the spacing of X. *)
Theorem step_factor_is_nominal_h s m X Y :
  run s m = Ok (X, Y) -> advances (rule (f s) m (h s)) X Y.
Proof.
  intros Hrun. destruct (run_inv s m X Y Hrun) as (n & _ & _ & _ & _ & _ & _ & Hadv).
  exact Hadv.
Qed.

(** C5: heun() is runge2nd(1/2), ralston() is runge2nd(2/3) and midpoint()
    is runge2nd(1): the same computation, hence the same (X, Y) or the same
    exception, for every configuration. *)
Theorem wrappers_are_runge2nd s :
  heun s = runge2nd s (fdiv (of_Z 1) (of_Z 2)) /\
  ralston s = runge2nd s (fdiv (of_Z 2) (of_Z 3)) /\
  midpoint s = runge2nd s (of_Z 1).
Proof. repeat split. Qed.

(** C8: whenever an integration method returns, the first element of Y is
    the boundary value y0. *)
Theorem first_sample_is_boundary s m X Y :
  run s m = Ok (X, Y) -> Y !! 0%nat = Some (boundary s).2.
Proof.
  intros Hrun. destruct (run_inv s m X Y Hrun) as (n & _ & _ & _ & _ & _ & Hy0 & _).
  exact Hy0.
Qed.

(** C10: with a step size equal to zero, the sample count raises
    ZeroDivisionError, and so does every integration method, none returning
    an (X, Y). *)
Theorem zero_step_raises s m :
  fis_zero (h s) = true ->
  sample_count s = Raise ZeroDivisionError /\
  run s m = Raise ZeroDivisionError.
Proof.
  intros Hz.
  assert (Hcount : sample_count s = Raise ZeroDivisionError).
  { unfold sample_count, truediv. by rewrite Hz. }
  split; [done|].
  assert (Hskel : forall body, skeleton s body = Raise ZeroDivisionError).
  { intros body. by apply skeleton_raises. }
  destruct (coefficient m) as [a2|] eqn:Hco.
  - rewrite (run_runge2nd m a2) by done. rewrite runge2nd_skeleton.
    unfold truediv. destruct (fis_zero (fmul (of_Z 2) a2)); simpl; [done | apply Hskel].
  - destruct m; try discriminate; simpl.
    + rewrite euler_skeleton. apply Hskel.
    + rewrite classic4th_skeleton. apply Hskel.
Qed.

(** C4: runge2nd with a2 = 0 raises ZeroDivisionError (from p = 1/(2*a2));
    it returns no Y at all, so no NaN or infinity reaches the caller. *)
Theorem runge2nd_zero_coefficient_raises `{!PyFloatLaws R} s (a2 : R) :
  fis_zero a2 = true -> runge2nd s a2 = Raise ZeroDivisionError.
Proof.
  intros Hz. rewrite runge2nd_skeleton. unfold truediv.
  by rewrite (double_zero a2 Hz).
Qed.

(** X4: with two samples or more the last element of X is [final_x] itself,
    in every arithmetic: [linspace] stores it without computing it. *)
Lemma last_sample_is_final_x s m X Y (n : Z) :
  run s m = Ok (X, Y) -> sample_count s = Ok n -> 2 <= n ->
  X !! (Z.to_nat n - 1)%nat = Some (final_x s).
Proof.
  intros Hrun Hcount Hn.
  destruct (run_inv s m X Y Hrun) as (n' & Hcount' & _ & Hgrid & _).
  rewrite Hcount in Hcount'. injection Hcount' as <-.
  by apply (linspace_last (boundary s).1).
Qed.

(** X5: every method returns as many Y as X, the number [sample_count] gives. *)
Lemma lengths_agree s m X Y :
  run s m = Ok (X, Y) ->
  exists n : Z, sample_count s = Ok n /\ 1 <= n /\
                length X = Z.to_nat n /\ length Y = Z.to_nat n.
Proof.
  intros Hrun.
  destruct (run_inv s m X Y Hrun) as (n & Hcount & Hn & _ & HlenX & HlenY & _).
  by exists n.
Qed.

End MethodTheorems.

Import Binary64 Binary64Laws Examples.

(** ** [compare] *)

Section CompareTheorems.
Context {R : Type} `{PyFloat R}.
Variable runtime_dir : list string.
Implicit Types (s : Solver R) (args : list string).

Lemma validate_accepts args :
  Forall (fun label => method_name label ∈ dir_self runtime_dir) args ->
  validate runtime_dir args = Ok tt.
Proof.
  induction 1 as [|label args Hin _ IH]; simpl; [done|].
  by rewrite bool_decide_true.
Qed.

Lemma validate_rejects (before after : list string) (label : string) :
  Forall (fun l => method_name l ∈ dir_self runtime_dir) before ->
  method_name label ∉ dir_self runtime_dir ->
  validate runtime_dir (before ++ label :: after) =
  Raise (Exception ("There is no method called '" ++ label ++ "'")).
Proof.
  intros Hbefore Hlabel. induction Hbefore as [|l before Hin _ IH]; simpl.
  - by rewrite bool_decide_false.
  - by rewrite bool_decide_true.
Qed.

Lemma class_attribute_in_dir (name : string) :
  name ∈ class_attributes -> name ∈ dir_self runtime_dir.
Proof. intros Hin. unfold dir_self. rewrite !elem_of_app. auto. Qed.

(** A failure of the second loop comes after a label was handed to [eval]. *)
Lemma evaluate_fails_after_eval s args results trace e trace' :
  evaluate s args results trace = (Some (Raise e), trace') ->
  exists label, label ∈ args /\ Evaluate label ∈ trace'.
Proof.
  revert results trace. induction args as [|i args IH]; intros results trace; simpl.
  - discriminate.
  - destruct (py_eval s i) as [[value|e']|].
    + destruct (plt_plot value i) as [drawn|e''].
      * intros Hrest. destruct (IH _ _ Hrest) as (label & Hin & Hev).
        exists label. split; [by apply elem_of_cons; right | done].
      * intros [= <- <-]. exists i.
        split; [by apply elem_of_cons; left | apply elem_of_app; right; by left].
    + intros [= <- <-]. exists i.
      split; [by apply elem_of_cons; left | apply elem_of_app; right; by left].
    + discriminate.
Qed.

(** C3 (as the code has it): when some label's text before the first "("
    is not an attribute name of the object (it is not in dir(self)),
    compare raises the exception that names the first such label; this
    happens before any label is evaluated or plotted, and no mapping is
    returned. *)
Theorem unknown_name_fails_before_evaluation s (before after : list string)
    (label : string) :
  Forall (fun l => method_name l ∈ dir_self runtime_dir) before ->
  method_name label ∉ dir_self runtime_dir ->
  compare runtime_dir s (before ++ label :: after) =
  (Some (Raise (Exception ("There is no method called '" ++ label ++ "'"))), []).
Proof.
  intros Hbefore Hlabel. unfold compare.
  by rewrite (validate_rejects before after label Hbefore Hlabel).
Qed.

(** C6 (as the code has it): compare("euler()", "classic4th()"), the labels
    written as calls, returns a mapping with exactly the keys "euler()" and
    "classic4th()", in that order, each mapped to the (X, Y) that euler()
    and classic4th() return; both are plotted, then the legend and the
    figure are shown. *)
Theorem compare_euler_classic4th s (X1 Y1 X2 Y2 : list R) :
  euler s = Ok (X1, Y1) -> classic4th s = Ok (X2, Y2) ->
  compare runtime_dir s ["euler()"; "classic4th()"] =
  (Some (Ok [("euler()", VSamples X1 Y1); ("classic4th()", VSamples X2 Y2)]),
   [Evaluate "euler()"; Plot (VSamples X1 Y1) "euler()";
    Evaluate "classic4th()"; Plot (VSamples X2 Y2) "classic4th()";
    Legend; ShowFigure]).
Proof.
  intros Heuler Hclassic. unfold compare.
  rewrite validate_accepts.
  - unfold evaluate.
    change (py_eval s "euler()") with (Some (samples (euler s))).
    change (py_eval s "classic4th()") with (Some (samples (classic4th s))).
    rewrite Heuler, Hclassic. reflexivity.
  - repeat constructor; apply class_attribute_in_dir; unfold class_attributes;
      rewrite !elem_of_cons; auto 10.
Qed.

(** C9: validation accepts every label whose text before the first "(" is
    in dir(self): the instance attributes f, boundary, h, final_x and the
    names every object inherits count as much as the methods.  For such
    labels the exception of the first loop is not raised; compare goes on
    to evaluate them, and if it fails, it fails there. *)
Theorem attribute_names_pass_validation s args :
  Forall (fun label =>
            method_name label ∈ instance_attributes ++ class_attributes ++ runtime_dir)
         args ->
  validate runtime_dir args = Ok tt /\
  compare runtime_dir s args =
    match evaluate s args [] [] with
    | (Some (Ok results), trace) => (Some (Ok results), trace ++ [Legend; ShowFigure])
    | failed => failed
    end /\
  forall e, (compare runtime_dir s args).1 = Some (Raise e) ->
            exists label, label ∈ args /\ Evaluate label ∈ (compare runtime_dir s args).2.
Proof.
  intros Hargs. assert (Hvalid := validate_accepts args Hargs).
  split; [done|].
  assert (Hcompare : compare runtime_dir s args =
            match evaluate s args [] [] with
            | (Some (Ok results), trace) => (Some (Ok results), trace ++ [Legend; ShowFigure])
            | failed => failed
            end).
  { unfold compare. by rewrite Hvalid. }
  split; [done|].
  intros e. rewrite Hcompare.
  destruct (evaluate s args [] []) as [[[results|e']|] trace] eqn:Hev; simpl;
    try discriminate.
  intros [= Heq]. subst. eapply evaluate_fails_after_eval. exact Hev.
Qed.

End CompareTheorems.

(** ** The theorems at work, and where the specification departs *)

Ltac by_computation := vm_compute; first [reflexivity | exact I | discriminate].

Ltac decide_membership := apply (bool_decide_unpack _); vm_compute; exact I.

(** The reference values of the schemes on dy/dx = y, in binary64: Euler
    with h = 0.5, the fourth-order scheme with h = 1 (the Taylor polynomial
    1 + 1 + 1/2 + 1/6 + 1/24), and the coefficients of the wrappers. *)
Example euler_reference :
  euler (growth 1 0.5) = Ok ([0; 0.5; 1], [1; 1.5; 2.25])%float.
Proof. by_computation. Qed.

Example classic4th_reference :
  classic4th (growth 1 1) = Ok ([0; 1], [1; 0x1.5aaaaaaaaaaaap+1])%float.
Proof. by_computation. Qed.

Example wrapper_coefficients :
  (fdiv (of_Z 1) (of_Z 2) : float) = 0.5%float /\
  (fdiv (of_Z 2) (of_Z 3) : float) = 0x1.5555555555555p-1%float /\
  (of_Z 1 : float) = 1%float.
Proof. repeat split; by_computation. Qed.

(** dy/dx = y from (0, 1) to x = 3 with h = 2: the count is 2, the grid is
    [0; 3] with spacing 3, and Euler advances by h = 2. *)
Lemma step_factor_is_nominal_h_witness :
  run (growth 3 2) Euler = Ok ([0; 3], [1; 3])%float /\
  advances (rule (f (growth 3 2)) Euler (h (growth 3 2))) [0; 3]%float [1; 3]%float.
Proof.
  split; [by_computation|].
  apply (step_factor_is_nominal_h (growth 3 2) Euler). by_computation.
Defined.

(** C1, as stated, fails: on that problem the spacing of X is 3, and Y[1]
    is not Y[0] + f(X[0], Y[0]) * 3 = 4 but 1 + 1 * 2 = 3. *)
Lemma spacing_is_not_the_step_factor :
  run (growth 3 2) Euler = Ok ([0; 3], [1; 3])%float /\
  sample_count (growth 3 2) = Ok 2 /\
  spacing (growth 3 2) 2 = 3%float /\
  h (growth 3 2) = 2%float /\
  euler_rule (f (growth 3 2)) (spacing (growth 3 2) 2) 0%float 1%float = 4%float /\
  ~ advances (rule (f (growth 3 2)) Euler (spacing (growth 3 2) 2))
             [0; 3]%float [1; 3]%float.
Proof.
  repeat (split; [by_computation|]).
  intros Hadv. destruct (Hadv 1%nat) as (xp & yp & Hx & Hy & Hnext); [simpl; lia|].
  simpl in Hx, Hy. injection Hx as <-. injection Hy as <-.
  sample_differ Hnext.
Qed.

(** C2, as stated, fails: from 0 to 7 with h = 4 the quotient is 1.75,
    which rounds to 2 and would give 3 samples; the methods return 2. *)
Lemma count_truncates_not_rounds :
  fis_zero (h (growth 7 4)) = false /\
  sample_count (growth 7 4) = Ok 2 /\
  run (growth 7 4) Euler = Ok ([0; 7], [1; 5])%float /\
  spec_sample_count 0 7 4 = 3.
Proof. repeat split; by_computation. Qed.

(** A grid far from zero: from 1e16 to 1e16 + 4 with h = 1, where
    consecutive binary64 numbers are 2 apart. *)
Definition far_grid : Solver float :=
  {| f := fun _ _ => 0%float; boundary := (1e16, 1)%float;
     final_x := 10000000000000004%float; h := 1%float |}.

(** C7, as stated, fails, twice.  From 0 to 1 with h = 2 the count is 1, so
    X is [0] and its last element is x0 = 0, not x_final = 1.  From 1e16 to
    1e16 + 4 with h = 1 the five samples repeat the first and the last value:
    X is not strictly monotonic and its spacing is 0, 2, 2, 0. *)
Lemma step_longer_than_interval :
  fis_zero (h (growth 1 2)) = false /\
  sample_count (growth 1 2) = Ok 1 /\
  run (growth 1 2) Euler = Ok ([0], [1])%float /\
  [0%float] !! (Z.to_nat 1 - 1)%nat = Some 0%float /\
  0%float <> final_x (growth 1 2) /\
  fis_zero (h far_grid) = false /\
  run far_grid Euler =
    Ok ([1e16; 1e16; 10000000000000002; 10000000000000004; 10000000000000004],
        [1; 1; 1; 1; 1])%float.
Proof.
  repeat (split; [by_computation|]). by_computation.
Qed.

Lemma first_sample_is_boundary_witness :
  run (growth 1 0.5) Classic4th =
    Ok ([0; 0.5; 1], [1; 1.6484375; 2.71734619140625])%float /\
  [1; 1.6484375; 2.71734619140625]%float !! 0%nat = Some (boundary (growth 1 0.5)).2.
Proof.
  split; [by_computation|].
  apply (first_sample_is_boundary (growth 1 0.5) Classic4th [0; 0.5; 1]%float).
  by_computation.
Defined.

Lemma zero_step_raises_witness :
  sample_count (growth 1 0) = Raise ZeroDivisionError /\
  run (growth 1 0) Heun = Raise ZeroDivisionError.
Proof. apply (zero_step_raises (growth 1 0) Heun). by_computation. Defined.

Lemma runge2nd_zero_coefficient_raises_witness :
  runge2nd (growth 1 0.5) 0%float = Raise ZeroDivisionError /\
  runge2nd (growth 1 0.5) (-0)%float = Raise ZeroDivisionError.
Proof.
  split; apply (runge2nd_zero_coefficient_raises (growth 1 0.5)); by_computation.
Defined.

Lemma unknown_name_fails_before_evaluation_witness :
  compare cpython_dir (growth 1 0.5) (["euler()"] ++ "bogus_method" :: ["heun()"]) =
  (Some (Raise (Exception "There is no method called 'bogus_method'")), []).
Proof.
  apply (unknown_name_fails_before_evaluation cpython_dir (growth 1 0.5)
           ["euler()"] ["heun()"] "bogus_method").
  - constructor; [decide_membership | constructor].
  - decide_membership.
Defined.

(** C3, as stated, fails: "h" names no operation, yet it passes the check;
    compare integrates and plots "euler()" first and then stops on a
    TypeError, not on the exception that names the label. *)
Lemma attribute_label_is_not_rejected :
  (method_name "h" ∉ operations) /\
  compare cpython_dir (growth 1 0.5) ["euler()"; "h"] =
  (Some (Raise TypeError),
   [Evaluate "euler()";
    Plot (VSamples [0; 0.5; 1]%float [1; 1.5; 2.25]%float) "euler()";
    Evaluate "h"]).
Proof. split; [decide_membership | by_computation]. Qed.

Lemma compare_euler_classic4th_witness :
  compare cpython_dir (growth 1 0.5) ["euler()"; "classic4th()"] =
  (Some (Ok [("euler()", VSamples [0; 0.5; 1]%float [1; 1.5; 2.25]%float);
             ("classic4th()",
              VSamples [0; 0.5; 1]%float [1; 1.6484375; 2.71734619140625]%float)]),
   [Evaluate "euler()";
    Plot (VSamples [0; 0.5; 1]%float [1; 1.5; 2.25]%float) "euler()";
    Evaluate "classic4th()";
    Plot (VSamples [0; 0.5; 1]%float [1; 1.6484375; 2.71734619140625]%float)
         "classic4th()";
    Legend; ShowFigure]).
Proof.
  apply (compare_euler_classic4th cpython_dir (growth 1 0.5)); by_computation.
Defined.

(** C6, as stated, fails: a bare name evaluates to the bound method, which
    cannot be unpacked into the arguments of plot; compare stops on a
    TypeError at the first label and returns no mapping. *)
Lemma bare_names_fail :
  py_eval (growth 1 0.5) "euler" = Some (Ok (VMethod "euler")) /\
  compare cpython_dir (growth 1 0.5) ["euler"; "classic4th"] =
  (Some (Raise TypeError), [Evaluate "euler"]).
Proof. split; by_computation. Qed.

Lemma attribute_names_pass_validation_witness :
  validate cpython_dir ["f"; "h(1)"; "boundary"; "final_x"; "__class__"; "euler"] = Ok tt /\
  compare cpython_dir (growth 1 0.5) ["h"] = (Some (Raise TypeError), [Evaluate "h"]).
Proof.
  split.
  - apply (attribute_names_pass_validation cpython_dir (growth 1 0.5)
             ["f"; "h(1)"; "boundary"; "final_x"; "__class__"; "euler"]).
    repeat (constructor; [decide_membership|]). constructor.
  - by_computation.
Defined.

(** ** Further properties of the integration methods *)

Section MethodProperties.
Context {R : Type} `{PyFloat R}.
Implicit Types (s : Solver R) (X Y : list R) (m : scheme R).

Lemma skeleton_empty s body :
  sample_count s = Ok 0 -> skeleton s body = Raise IndexError.
Proof. intros Hcount. unfold skeleton. rewrite Hcount. reflexivity. Qed.

Lemma skeleton_negative s body (n : Z) :
  sample_count s = Ok n -> n < 0 -> skeleton s body = Raise ValueError.
Proof.
  intros Hcount Hn. unfold skeleton. rewrite Hcount. simpl. unfold linspace.
  by rewrite (proj2 (Z.ltb_lt n 0)).
Qed.

(** X1: every method samples the same grid: two methods that return on one
    solver return the same X, and Y of the same length. *)
Theorem methods_share_grid s m1 m2 (X1 Y1 X2 Y2 : list R) :
  run s m1 = Ok (X1, Y1) -> run s m2 = Ok (X2, Y2) ->
  X1 = X2 /\ length Y1 = length Y2.
Proof.
  intros Hrun1 Hrun2.
  destruct (run_inv s m1 X1 Y1 Hrun1) as (n1 & Hc1 & _ & Hg1 & _ & Hl1 & _).
  destruct (run_inv s m2 X2 Y2 Hrun2) as (n2 & Hc2 & _ & Hg2 & _ & Hl2 & _).
  rewrite Hc1 in Hc2. injection Hc2 as <-.
  rewrite Hg1 in Hg2. injection Hg2 as <-.
  split; [done | congruence].
Qed.

(** X2: the returned Y is the only sequence of the length of X that starts at
    y0 and is advanced by the scheme's formula with step h: no slot keeps
    what [np.empty] left in it. *)
Theorem samples_determined_by_recurrence s m X Y (Y' : list R) :
  run s m = Ok (X, Y) ->
  length Y' = length X -> Y' !! 0%nat = Some (boundary s).2 ->
  advances (rule (f s) m (h s)) X Y' ->
  Y' = Y.
Proof.
  intros Hrun Hlen' Hfirst' Hadv'.
  destruct (run_inv s m X Y Hrun) as (n & _ & _ & _ & HlenX & HlenY & Hfirst & Hadv).
  apply list_eq. intros i. induction i as [|i IH].
  - by rewrite Hfirst, Hfirst'.
  - destruct (decide (S i < length X)%nat) as [Hin|Hout].
    + destruct (Hadv (S i)) as (xp & yp & Hx & Hy & Hnext); [lia|].
      destruct (Hadv' (S i)) as (xp' & yp' & Hx' & Hy' & Hnext'); [lia|].
      replace (S i - 1)%nat with i in * by lia.
      rewrite Hx in Hx'. injection Hx' as <-.
      rewrite IH, Hy in Hy'. injection Hy' as <-.
      by rewrite Hnext, Hnext'.
    + rewrite !lookup_ge_None_2; [done | lia | lia].
Qed.

End MethodProperties.

(** ** Further properties of [compare] *)

(** The keys of a dict after [results[k] = v] for each label in turn: a
    label takes the place of its first occurrence. *)
Definition add_key (keys : list string) (k : string) : list string :=
  if bool_decide (k ∈ keys) then keys else keys ++ [k].

Definition first_occurrences (args : list string) : list string :=
  fold_left add_key args [].

Section CompareProperties.
Context {R : Type} `{PyFloat R}.
Variable runtime_dir : list string.
Implicit Types (s : Solver R) (args : list string) (results : list (string * pyval R)).

(** What one round of the second loop does for a label that evaluates. *)
Definition plotted s (label : string) : list (event R) :=
  match py_eval s label with
  | Some (Ok value) => [Evaluate label; Plot value label]
  | _ => []
  end.

Lemma dict_set_keys results (k : string) (v : pyval R) :
  (dict_set results k v).*1 = add_key results.*1 k.
Proof.
  unfold add_key. induction results as [|[k' v'] results IH]; [done|].
  cbn [dict_set]. destruct (String.eqb_spec k' k) as [->|Hne]; rewrite !fmap_cons; cbn [fst].
  - rewrite bool_decide_true by (by left). done.
  - rewrite IH. destruct (decide (k ∈ results.*1)) as [Hin|Hout].
    + rewrite !bool_decide_true; [done | by right | done].
    + rewrite !bool_decide_false; [done | | done].
      intros [->|Hin]%elem_of_cons; done.
Qed.

Lemma dict_set_entries results (k k0 : string) (v v0 : pyval R) :
  (k0, v0) ∈ dict_set results k v -> (k0 = k /\ v0 = v) \/ (k0, v0) ∈ results.
Proof.
  induction results as [|[k' v'] results IH]; simpl.
  - intros [[= -> ->]|[]%elem_of_nil]%elem_of_cons. by left.
  - destruct (String.eqb k' k).
    + intros [[= -> ->]|Hin]%elem_of_cons; [by left | right; by right].
    + intros [[= -> ->]|Hin]%elem_of_cons; [right; by left|].
      destruct (IH Hin) as [?|?]; [by left | right; by right].
Qed.

Lemma add_key_NoDup (keys : list string) (k : string) :
  NoDup keys -> NoDup (add_key keys k).
Proof.
  intros Hnd. unfold add_key. case_bool_decide as Hin; [done|].
  apply NoDup_app. split; [done|]. split; [|apply NoDup_singleton].
  intros x Hx ->%list_elem_of_singleton. done.
Qed.

Lemma add_key_elem (keys : list string) (k x : string) :
  x ∈ add_key keys k <-> x ∈ keys \/ x = k.
Proof.
  unfold add_key. case_bool_decide as Hin.
  - split; [by left | intros [?| ->]; done].
  - rewrite elem_of_app, list_elem_of_singleton. done.
Qed.

Lemma fold_add_key_NoDup args (keys : list string) :
  NoDup keys -> NoDup (fold_left add_key args keys).
Proof.
  revert keys. induction args as [|k args IH]; intros keys Hnd; simpl; [done|].
  apply IH. by apply add_key_NoDup.
Qed.

Lemma fold_add_key_elem args (keys : list string) (x : string) :
  x ∈ fold_left add_key args keys <-> x ∈ keys \/ x ∈ args.
Proof.
  revert keys. induction args as [|k args IH]; intros keys; simpl.
  - rewrite elem_of_nil. tauto.
  - rewrite IH, add_key_elem, elem_of_cons. tauto.
Qed.

Lemma plt_plot_ok (value : pyval R) (label : string) (drawn : event R) :
  plt_plot value label = Ok drawn -> drawn = Plot value label.
Proof. destruct value; simpl; congruence. Qed.

Lemma evaluate_ok s args results trace results' trace' :
  evaluate s args results trace = (Some (Ok results'), trace') ->
  results'.*1 = fold_left add_key args results.*1 /\
  trace' = trace ++ flat_map (plotted s) args /\
  (forall k v, (k, v) ∈ results' ->
     (k, v) ∈ results \/ (k ∈ args /\ py_eval s k = Some (Ok v))).
Proof.
  revert results trace. induction args as [|i args IH]; intros results trace; simpl.
  - intros [= <- <-]. rewrite app_nil_r. repeat split; auto.
  - unfold plotted at 1. destruct (py_eval s i) as [[value|e]|] eqn:Heval; try discriminate.
    destruct (plt_plot value i) as [drawn|e] eqn:Hplot; try discriminate.
    apply plt_plot_ok in Hplot as ->. intros Hrest.
    destruct (IH _ _ Hrest) as (Hkeys & Htrace & Hvalues).
    split; [by rewrite Hkeys, dict_set_keys|].
    split; [rewrite Htrace, <- !app_assoc; done|].
    intros k v Hin. destruct (Hvalues k v Hin) as [Hold|[Harg Hval]].
    + destruct (dict_set_entries _ _ _ _ _ Hold) as [[-> ->]|Hold'].
      * right. split; [by left | done].
      * by left.
    + right. split; [by right | done].
Qed.

(** X11: when [compare] returns, the keys of the mapping are the labels in the
    order of their first occurrence, each once; every key is mapped to the
    value of its label; every label, repeated or not, was evaluated and
    plotted in turn, and the legend and the figure were shown once, last. *)
Theorem compare_result_shape s args results (trace : list (event R)) :
  compare runtime_dir s args = (Some (Ok results), trace) ->
  results.*1 = first_occurrences args /\
  NoDup results.*1 /\
  (forall k, k ∈ results.*1 <-> k ∈ args) /\
  (forall k v, (k, v) ∈ results -> py_eval s k = Some (Ok v)) /\
  trace = flat_map (plotted s) args ++ [Legend; ShowFigure].
Proof.
  unfold compare. destruct (validate runtime_dir args); [|discriminate].
  destruct (evaluate s args [] []) as [[[results'|e]|] trace'] eqn:Hev; try discriminate.
  intros [= <- <-].
  destruct (evaluate_ok s args [] [] results' trace' Hev) as (Hkeys & Htrace & Hvalues).
  simpl in Hkeys, Htrace. fold (first_occurrences args) in Hkeys.
  split; [done|]. split.
  { rewrite Hkeys. apply fold_add_key_NoDup. constructor. }
  split.
  { intros k. rewrite Hkeys. unfold first_occurrences.
    rewrite fold_add_key_elem, elem_of_nil. tauto. }
  split; [|by rewrite Htrace].
  intros k v Hin. destruct (Hvalues k v Hin) as [[]%elem_of_nil|[_ Hval]]. done.
Qed.




(** X13: an exception raised while a label is evaluated or plotted leaves
    [compare] at once: the labels before it have been plotted, the ones
    after it are not evaluated. *)
Theorem compare_stops_at_first_failure s (before after : list string)
    (label : string) (e : exn) :
  Forall (fun l => method_name l ∈ dir_self runtime_dir) (before ++ label :: after) ->
  Forall (fun l => exists v, py_eval s l = Some (Ok v) /\ plt_plot v l = Ok (Plot v l))
         before ->
  py_eval s label = Some (Raise e) \/
  (exists v, py_eval s label = Some (Ok v) /\ plt_plot v label = Raise e) ->
  compare runtime_dir s (before ++ label :: after) =
  (Some (Raise e), flat_map (plotted s) before ++ [Evaluate label]).
Proof.
  intros Hvalid Hbefore Hfail. unfold compare. rewrite validate_accepts by done.
  clear Hvalid.
  assert (Hloop : forall results trace,
            evaluate s (before ++ label :: after) results trace =
            (Some (Raise e), trace ++ flat_map (plotted s) before ++ [Evaluate label])).
  { induction Hbefore as [|l before (v & Hv & Hplot) _ IH]; intros results trace; simpl.
    - destruct Hfail as [Hev|(v & Hev & Hplot)]; rewrite Hev, ?Hplot; done.
    - unfold plotted at 1. rewrite Hv, Hplot, IH. by rewrite <- !app_assoc. }
  by rewrite Hloop.
Qed.

(** X14: A label that only names a method, [f], [h] or [final_x], without
    calling it, evaluates to a value that cannot be unpacked: the first such
    label ends [compare] with a TypeError. *)
Theorem uncalled_label_raises_type_error s (name : string) (rest : list string) :
  name ∈ ["f"; "h"; "final_x"] ++ class_attributes ->
  Forall (fun l => method_name l ∈ dir_self runtime_dir) rest ->
  compare runtime_dir s (name :: rest) = (Some (Raise TypeError), [Evaluate name]).
Proof.
  intros Hname Hrest.
  assert (Hcases : name ∈ ["f"; "h"; "final_x"; "__init__"; "euler"; "runge2nd"; "heun";
                           "ralston"; "midpoint"; "classic4th"; "compare"]) by done.
  assert (Hvalid : method_name name ∈ dir_self runtime_dir).
  { unfold dir_self, instance_attributes. rewrite !elem_of_app.
    rewrite !elem_of_cons in Hcases. rewrite !elem_of_cons.
    destruct Hcases as [->|[->|[->|Hclass]]]; [by left; auto..|].
    right; left. unfold class_attributes. rewrite !elem_of_cons.
    destruct Hclass as [->|[->|[->|[->|[->|[->|[->|[->|[]%elem_of_nil]]]]]]]]; simpl; auto 10. }
  unfold compare. rewrite validate_accepts by (by constructor).
  rewrite !elem_of_cons in Hcases.
  destruct Hcases as [->|[->|[->|[->|[->|[->|[->|[->|[->|[->|[->|[]%elem_of_nil]]]]]]]]]]];
    reflexivity.
Qed.

End CompareProperties.

(** ** Binary64: inputs that are not finite *)

(** The classes of binary64 numbers. *)
Definition is_nan (x : float) : Prop := Prim2SF x = S754_nan.

Definition is_infinite (x : float) : Prop := exists sign, Prim2SF x = S754_infinity sign.

Definition is_finite (x : float) : Prop :=
  match Prim2SF x with
  | S754_zero _ | S754_finite _ _ _ => True
  | _ => False
  end.

Lemma nan_is_not_zero (x : float) : is_nan x -> fis_zero x = false.
Proof. unfold is_nan. simpl. rewrite FloatAxioms.eqb_spec. by intros ->. Qed.

Lemma int_of_nan (x : float) : is_nan x -> to_int x = Raise ValueError.
Proof. unfold is_nan. simpl. unfold int_of. by intros ->. Qed.

Lemma count_of_nan (q : float) :
  is_nan q -> to_int (fadd (fabs q) (of_Z 1)) = Raise ValueError.
Proof.
  intros Hq. apply int_of_nan. unfold is_nan in *. simpl.
  by rewrite FloatAxioms.add_spec, FloatAxioms.abs_spec, Hq.
Qed.

(** X15: A NaN among x0, x_final and h makes the quotient NaN, and [int]
    refuses it: the count and every method raise ValueError. *)
Theorem nan_input_raises_value_error (s : Solver float) (m : scheme float) :
  fis_zero (h s) = false ->
  is_nan (h s) \/ is_nan (final_x s) \/ is_nan (boundary s).1 ->
  admissible m ->
  sample_count s = Raise ValueError /\ run s m = Raise ValueError.
Proof.
  intros Hz Hnan Hadm.
  assert (Hcount : sample_count s = Raise ValueError).
  { unfold sample_count, truediv. rewrite Hz. cbn [bind]. apply count_of_nan.
    unfold is_nan in *. simpl. rewrite FloatAxioms.div_spec, FloatAxioms.sub_spec.
    destruct Hnan as [->|[->| ->]].
    - by destruct (SF64sub _ _).
    - by destruct (Prim2SF (boundary s).1), (Prim2SF (h s)).
    - by destruct (Prim2SF (final_x s)), (Prim2SF (h s)). }
  split; [done | by apply run_raises_count].
Qed.

(** X16: an infinite x_final with finite x0 and finite h != 0 makes the
    quotient infinite, and [int] refuses it: the count and every method
    raise OverflowError. *)
Theorem infinite_final_x_raises_overflow (s : Solver float) (m : scheme float) :
  is_infinite (final_x s) -> is_finite (boundary s).1 -> is_finite (h s) ->
  fis_zero (h s) = false -> admissible m ->
  sample_count s = Raise OverflowError /\ run s m = Raise OverflowError.
Proof.
  intros [sign Hinf] Hx0 Hh Hz Hadm.
  assert (Hcount : sample_count s = Raise OverflowError).
  { unfold sample_count, truediv. rewrite Hz. cbn [bind]. simpl. unfold int_of.
    rewrite FloatAxioms.add_spec, FloatAxioms.abs_spec, FloatAxioms.div_spec,
      FloatAxioms.sub_spec, Hinf.
    unfold is_finite in *. simpl in Hz. rewrite FloatAxioms.eqb_spec in Hz.
    destruct (Prim2SF (boundary s).1) as [b|b| |b mx ex]; try done;
    destruct (Prim2SF (h s)) as [c|c| |c mh eh]; try done;
    try (by destruct c); reflexivity. }
  split; [done | by apply run_raises_count].
Qed.

(** ** The further properties at work *)

Lemma methods_share_grid_witness :
  [0; 0.5; 1]%float = [0; 0.5; 1]%float /\
  length [1; 1.5; 2.25]%float = length [1; 1.6484375; 2.71734619140625]%float.
Proof.
  apply (methods_share_grid (growth 1 0.5) Euler Classic4th); by_computation.
Defined.

Lemma samples_determined_by_recurrence_witness :
  run (growth 1 0.5) Euler = Ok ([0; 0.5; 1], [1; 1.5; 2.25])%float /\
  (1 :: map (fun y => y * 1.5) [1; 1.5])%float = [1; 1.5; 2.25]%float.
Proof.
  split; [by_computation|].
  apply (samples_determined_by_recurrence (growth 1 0.5) Euler [0; 0.5; 1]%float).
  - by_computation.
  - reflexivity.
  - reflexivity.
  - intros i Hi. destruct i as [|[|[|i]]]; simpl in Hi; try lia;
      eexists _, _; repeat split; by_computation.
Defined.

Lemma last_sample_is_final_x_witness :
  [0; 0.5; 1]%float !! (Z.to_nat 3 - 1)%nat = Some (final_x (growth 1 0.5)).
Proof.
  apply (last_sample_is_final_x (growth 1 0.5) Euler [0; 0.5; 1]%float
           [1; 1.5; 2.25]%float 3); [by_computation | by_computation | lia].
Defined.

Lemma lengths_agree_witness :
  exists n : Z, sample_count (growth 7 4) = Ok n /\ 1 <= n /\
                length [0; 7]%float = Z.to_nat n /\ length [1; 5]%float = Z.to_nat n.
Proof. apply (lengths_agree (growth 7 4) Euler). by_computation. Defined.

Lemma compare_result_shape_witness :
  [("euler()", VSamples [0; 0.5; 1]%float [1; 1.5; 2.25]%float);
   ("heun()", VSamples [0; 0.5; 1]%float [1; 1.625; 2.640625]%float)].*1 =
  first_occurrences ["euler()"; "heun()"; "euler()"] /\
  length (flat_map (plotted (growth 1 0.5)) ["euler()"; "heun()"; "euler()"]) = 6%nat.
Proof.
  split; [|by_computation].
  apply (compare_result_shape cpython_dir (growth 1 0.5) ["euler()"; "heun()"; "euler()"]
           [("euler()", VSamples [0; 0.5; 1]%float [1; 1.5; 2.25]%float);
            ("heun()", VSamples [0; 0.5; 1]%float [1; 1.625; 2.640625]%float)]
           (flat_map (plotted (growth 1 0.5)) ["euler()"; "heun()"; "euler()"]
              ++ [Legend; ShowFigure])).
  by_computation.
Defined.


Lemma compare_stops_at_first_failure_witness :
  compare cpython_dir (growth 1 0.5) (["euler()"] ++ "runge2nd(0)" :: ["heun()"]) =
  (Some (Raise ZeroDivisionError),
   flat_map (plotted (growth 1 0.5)) ["euler()"] ++ [Evaluate "runge2nd(0)"]).
Proof.
  apply (compare_stops_at_first_failure cpython_dir (growth 1 0.5)
           ["euler()"] ["heun()"] "runge2nd(0)" ZeroDivisionError).
  - repeat (constructor; [decide_membership|]). constructor.
  - constructor; [|constructor].
    exists (VSamples [0; 0.5; 1]%float [1; 1.5; 2.25]%float). split; by_computation.
  - left. by_computation.
Defined.

Lemma uncalled_label_raises_type_error_witness :
  compare cpython_dir (growth 1 0.5) ["heun"; "euler()"] =
  (Some (Raise TypeError), [Evaluate "heun"]).
Proof.
  apply (uncalled_label_raises_type_error cpython_dir (growth 1 0.5) "heun" ["euler()"]).
  - decide_membership.
  - constructor; [decide_membership | constructor].
Defined.

Lemma heun_is_admissible : admissible (Heun : scheme float).
Proof. intros a2 [= <-]. by_computation. Qed.

Lemma nan_input_raises_value_error_witness :
  sample_count (growth 1 nan) = Raise ValueError /\
  run (growth 1 nan) Heun = Raise ValueError.
Proof.
  apply (nan_input_raises_value_error (growth 1 nan) Heun).
  - by_computation.
  - left. by_computation.
  - exact heun_is_admissible.
Defined.

Lemma infinite_final_x_raises_overflow_witness :
  sample_count (growth infinity 1) = Raise OverflowError /\
  run (growth infinity 1) Heun = Raise OverflowError.
Proof.
  apply (infinite_final_x_raises_overflow (growth infinity 1) Heun).
  - exists false. by_computation.
  - by_computation.
  - by_computation.
  - by_computation.
  - exact heun_is_admissible.
Defined.

(** ** Binary64: the count and the grid *)

(** The rational a binary64 number stands for (0 for NaN and infinities). *)
Definition SF2Q (x : spec_float) : Q :=
  match x with
  | S754_finite sign m e =>
      ((if sign then - inject_Z (Zpos m) else inject_Z (Zpos m)) * 2 ^ e)%Q
  | _ => 0%Q
  end.

Definition float_value (x : float) : Q := SF2Q (Prim2SF x).

(** The float whose [int] is the sample count: |(x_final - x0)/h| + 1. *)
Definition count_operand (s : Solver float) : float :=
  fadd (fabs (fdiv (fsub (final_x s) (boundary s).1) (h s))) (of_Z 1).

Lemma two_power_pos (k : positive) : (2 ^ Zpos k == inject_Z (2 ^ Zpos k))%Q.
Proof. symmetry. apply (Zpower_Qpower 2 (Zpos k)). lia. Qed.

(** [int] of a positive float truncates: n <= x < n + 1. *)
Lemma int_of_truncates (x : float) (n : Z) :
  int_of x = Ok n -> 0 < n ->
  (inject_Z n <= float_value x)%Q /\ (float_value x < inject_Z n + 1)%Q.
Proof.
  unfold int_of, float_value. destruct (Prim2SF x) as [sign|sign| |sign m e]; try discriminate.
  - intros [= <-]. lia.
  - intros [= <-] Hpos. destruct sign.
    { exfalso. destruct e; simpl in Hpos; try lia.
      - rewrite Z.shiftl_mul_pow2 in Hpos by lia. nia.
      - assert (0 <= Z.shiftr (Z.pos m) (Z.pos p)) by (apply Z.shiftr_nonneg; lia). lia. }
    unfold SF2Q. destruct e as [|k|k].
    + simpl (2 ^ 0)%Q. rewrite Qmult_1_r. split; [apply Qle_refl|].
      rewrite <- (Qplus_0_r (inject_Z (Z.pos m))) at 1. apply Qplus_lt_r. reflexivity.
    + rewrite Z.shiftl_mul_pow2 by lia. rewrite two_power_pos, <- inject_Z_mult.
      split; [apply Qle_refl|].
      rewrite <- Qplus_0_r at 1. apply Qplus_lt_r. reflexivity.
    + rewrite Z.shiftr_div_pow2 by lia.
      assert (Hpow : 0 < 2 ^ Z.pos k) by (apply Z.pow_pos_nonneg; lia).
      assert (Hq : (2 ^ Z.neg k == / inject_Z (2 ^ Z.pos k))%Q).
      { change (Z.neg k) with (- Z.pos k). rewrite Qpower_opp, two_power_pos. reflexivity. }
      rewrite Hq.
      assert (Hposq : (0 < inject_Z (2 ^ Z.pos k))%Q).
      { rewrite <- (Zlt_Qlt 0). done. }
      pose proof (Z.mul_div_le (Z.pos m) (2 ^ Z.pos k) Hpow) as Hlo.
      pose proof (Z.mul_succ_div_gt (Z.pos m) (2 ^ Z.pos k) Hpow) as Hhi.
      set (d := Z.pos m / 2 ^ Z.pos k) in *.
      split.
      * apply Qle_shift_div_l; [done|]. rewrite <- inject_Z_mult, <- Zle_Qle. lia.
      * apply Qlt_shift_div_r; [done|].
        change 1%Q with (inject_Z 1). rewrite <- inject_Z_plus, <- inject_Z_mult, <- Zlt_Qlt.
        lia.
Qed.

Definition SFfinite (x : spec_float) : Prop :=
  match x with
  | S754_zero _ | S754_finite _ _ _ => True
  | _ => False
  end.

Lemma SFdiv_finite_dividend (D H : spec_float) :
  SFfinite (SF64div D H) -> SFfinite D.
Proof. destruct D; try (intros; exact I); destruct H; simpl; done. Qed.

Lemma SFsub_finite_operands (A B : spec_float) :
  SFfinite (SF64sub A B) -> SFfinite A /\ SFfinite B.
Proof.
  destruct A as [a|[|]| |a ma ea], B as [b|[|]| |b mb eb];
    try (intros; split; exact I); simpl; done.
Qed.

Lemma SFadd_abs_finite (Q0 C : spec_float) :
  SFfinite (SF64add (SFabs Q0) C) -> SFfinite Q0.
Proof. destruct Q0; try (intros; exact I); destruct C as [c|[|]| |c mc ec]; simpl; done. Qed.

Lemma int_of_ok_finite (x : float) (n : Z) : int_of x = Ok n -> is_finite x.
Proof. unfold int_of, is_finite. by destruct (Prim2SF x). Qed.

(** A computed count means a nonzero step and finite data. *)
Lemma sample_count_ok (s : Solver float) (n : Z) :
  sample_count s = Ok n ->
  fis_zero (h s) = false /\ int_of (count_operand s) = Ok n /\
  is_finite (boundary s).1 /\ is_finite (final_x s) /\
  is_finite (fsub (final_x s) (boundary s).1).
Proof.
  unfold sample_count, truediv. destruct (fis_zero (h s)) eqn:Hz; [discriminate|].
  cbn [bind]. intros Hint. split; [done|]. split; [exact Hint|].
  apply int_of_ok_finite in Hint. unfold is_finite in *.
  change (SFfinite (Prim2SF
            (fadd (fabs (fdiv (fsub (final_x s) (boundary s).1) (h s))) (of_Z 1)))) in Hint.
  change (SFfinite (Prim2SF (boundary s).1) /\ SFfinite (Prim2SF (final_x s)) /\
          SFfinite (Prim2SF (fsub (final_x s) (boundary s).1))).
  simpl fadd in Hint. simpl fabs in Hint. simpl fdiv in Hint. simpl fsub in *.
  rewrite FloatAxioms.add_spec, FloatAxioms.abs_spec, FloatAxioms.div_spec in Hint.
  apply SFadd_abs_finite, SFdiv_finite_dividend in Hint.
  assert (Hops := Hint). rewrite FloatAxioms.sub_spec in Hops.
  apply SFsub_finite_operands in Hops as [Ha Hb]. done.
Qed.

(** C2 (as the code has it): whenever an integration method returns, h is
    not zero and X and Y have n samples, where n is [int] of the binary64
    number t = |(x_final - x0)/h| + 1: the value of t truncated,
    n <= t < n + 1, not rounded to the nearest integer. *)
Theorem sample_count_truncates (s : Solver float) (m : scheme float) (X Y : list float) :
  run s m = Ok (X, Y) ->
  exists n : Z,
    sample_count s = Ok n /\ 1 <= n /\
    length X = Z.to_nat n /\ length Y = Z.to_nat n /\
    fis_zero (h s) = false /\
    to_int (count_operand s) = Ok n /\
    (inject_Z n <= float_value (count_operand s))%Q /\
    (float_value (count_operand s) < inject_Z n + 1)%Q.
Proof.
  intros Hrun.
  destruct (run_inv s m X Y Hrun) as (n & Hcount & Hn & _ & HlenX & HlenY & _).
  destruct (sample_count_ok s n Hcount) as (Hz & Hint & _).
  exists n. repeat (split; [done|]).
  apply int_of_truncates; [done | lia].
Qed.

Definition SFis_zero (x : spec_float) : Prop :=
  match x with S754_zero _ => True | _ => False end.

(** Finite and not zero, or infinite: what a zero can be divided by. *)
Definition SFdivisor (x : spec_float) : Prop :=
  match x with S754_finite _ _ _ | S754_infinity _ => True | _ => False end.

Lemma SFeqb_refl (A : spec_float) : SFfinite A -> SFeqb A A = true.
Proof.
  destruct A as [a|a| |a m e]; try done. intros _. unfold SFeqb, SFcompare.
  destruct a; rewrite Z.compare_refl, Pos.compare_cont_refl; reflexivity.
Qed.

Lemma SFadd_zero_l (Z0 A : spec_float) :
  SFis_zero Z0 -> SFfinite A -> SFeqb (SF64add Z0 A) A = true.
Proof.
  destruct Z0 as [z| | |]; try done. intros _.
  destruct A as [a|a| |a m e]; try done; intros _.
  - by destruct z, a.
  - apply (SFeqb_refl (S754_finite a m e)). exact I.
Qed.

Lemma SFmul_zero_l (Z0 D : spec_float) :
  SFis_zero Z0 -> SFfinite D -> SFis_zero (SF64mul Z0 D).
Proof. destruct Z0; try done. destruct D; done. Qed.

Lemma SFdiv_zero_l (Z0 D : spec_float) :
  SFis_zero Z0 -> SFdivisor D -> SFis_zero (SF64div Z0 D).
Proof. destruct Z0; try done. destruct D; done. Qed.

Lemma SFdiv_zero_divisor (D V : spec_float) :
  SFfinite D -> SFis_zero (SF64div D V) -> SFdivisor V.
Proof.
  destruct D as [d|d| |d m e]; try done; intros _;
    destruct V as [v|v| |v mv ev]; try (intros; exact I); simpl; done.
Qed.

Lemma fis_zero_spec (x : float) : fis_zero x = true -> SFis_zero (Prim2SF x).
Proof. intros Hz. destruct (zero_is_zero x Hz) as [sign ->]. exact I. Qed.

Lemma fis_nonzero_spec (x : float) :
  fis_zero x = false -> is_finite x -> SFfinite (Prim2SF x) /\ ~ SFis_zero (Prim2SF x).
Proof.
  unfold is_finite. simpl. rewrite FloatAxioms.eqb_spec.
  destruct (Prim2SF x) as [a|a| |a m e]; try done.
  intros _ _. split; [exact I | intros []].
Qed.

(** The first sample of a grid with finite data and a finite step. *)
Lemma linspace_first (a b : float) (n : Z) (X : list float) :
  linspace a b n = Ok X -> 1 <= n ->
  is_finite a -> is_finite (fsub b a) ->
  n = 1 \/ is_finite (fdiv (fsub b a) (of_Z (n - 1))) ->
  exists first, X !! 0%nat = Some first /\ PrimFloat.eqb first a = true.
Proof.
  intros HX Hn Ha Hdelta Hstep. unfold is_finite in Ha, Hdelta.
  assert (Hzero : SFis_zero (Prim2SF (of_Z 0))) by exact I.
  assert (Hadd : forall z : float, SFis_zero (Prim2SF z) ->
            PrimFloat.eqb (fadd z a) a = true).
  { intros z Hz. simpl. rewrite FloatAxioms.eqb_spec, FloatAxioms.add_spec.
    by apply SFadd_zero_l. }
  destruct (Z.eq_dec n 1) as [->|Hmany].
  - rewrite linspace_one in HX. injection HX as <-. eexists. split; [reflexivity|].
    apply Hadd. simpl. rewrite FloatAxioms.mul_spec. by apply SFmul_zero_l.
  - destruct Hstep as [?|Hstep]; [done|]. unfold is_finite in Hstep.
    assert (H2 : 2 <= n) by lia.
    assert (H0 : (0 < Z.to_nat n - 1)%nat) by lia.
    rewrite (linspace_inner a b n X 0 H2 HX H0).
    eexists. split; [reflexivity|]. apply Hadd. unfold linspace_scale.
    destruct (fis_zero (fdiv (fsub b a) (of_Z (n - 1)))) eqn:Hz.
    + apply fis_zero_spec in Hz. simpl in Hz |- *.
      rewrite FloatAxioms.div_spec in Hz.
      rewrite FloatAxioms.mul_spec, FloatAxioms.div_spec.
      apply SFmul_zero_l; [|done]. apply SFdiv_zero_l; [done|].
      by apply (SFdiv_zero_divisor (Prim2SF (fsub b a))).
    + simpl. rewrite FloatAxioms.mul_spec. apply SFmul_zero_l; [done|].
      by destruct (fis_nonzero_spec _ Hz Hstep).
Qed.

(** C7 (as the code has it): whenever an integration method returns, X and
    Y have the same length n >= 1.  X[0] equals x0 when n = 1 or the
    computed spacing (x_final - x0)/(n-1) is finite.  When n >= 2, X[n-1] is
    x_final itself and every sample before it is x0 plus the index scaled by
    that one spacing, each operation rounded; nothing more is promised of
    the order or the spacing of the rounded samples. *)
Theorem grid_of_every_method (s : Solver float) (m : scheme float) (X Y : list float) :
  run s m = Ok (X, Y) ->
  exists n : Z,
    sample_count s = Ok n /\ 1 <= n /\
    length X = Z.to_nat n /\ length Y = Z.to_nat n /\
    (n = 1 \/ is_finite (spacing s n) ->
     exists first, X !! 0%nat = Some first /\
                   PrimFloat.eqb first (boundary s).1 = true) /\
    (2 <= n ->
     X !! (Z.to_nat n - 1)%nat = Some (final_x s) /\
     forall i : nat, (i < Z.to_nat n - 1)%nat ->
       X !! i = Some (fadd (linspace_scale (boundary s).1 (final_x s) n
                              (of_Z (Z.of_nat i)))
                           (boundary s).1)).
Proof.
  intros Hrun.
  destruct (run_inv s m X Y Hrun) as (n & Hcount & Hn & Hgrid & HlenX & HlenY & _).
  destruct (sample_count_ok s n Hcount) as (_ & _ & Hx0 & _ & Hdelta).
  exists n. repeat (split; [done|]). split.
  - intros Hstep. by apply (linspace_first _ (final_x s) n).
  - intros Hmany. split; [by apply (linspace_last (boundary s).1)|].
    intros i Hi. by apply linspace_inner.
Qed.

Lemma int_of_exceptions (x : float) (e : exn) :
  int_of x = Raise e -> e = OverflowError \/ e = ValueError.
Proof. unfold int_of. destruct (Prim2SF x); intros [= <-]; auto. Qed.

Lemma sample_count_raises (s : Solver float) (e : exn) :
  sample_count s = Raise e ->
  (e = ZeroDivisionError /\ fis_zero (h s) = true) \/
  (fis_zero (h s) = false /\ (e = OverflowError \/ e = ValueError)).
Proof.
  unfold sample_count, truediv. destruct (fis_zero (h s)); cbn [bind].
  - intros [= <-]. by left.
  - intros Hint. right. split; [done|]. by apply int_of_exceptions in Hint.
Qed.

(** Where a failure of a method comes from, in the model. *)
Lemma run_failure_cases (s : Solver float) (m : scheme float) (e : exn) :
  run s m = Raise e ->
  (e = ZeroDivisionError /\
   exists a2, coefficient m = Some a2 /\ fis_zero (fmul (of_Z 2) a2) = true) \/
  sample_count s = Raise e \/
  (e = ValueError /\ exists n : Z, sample_count s = Ok n /\ n < 0) \/
  (e = IndexError /\ sample_count s = Ok 0).
Proof.
  intros Hrun.
  assert (Hskel : forall body advance,
            (forall x, writes advance x (body x)) -> skeleton s body = Raise e ->
            sample_count s = Raise e \/
            (e = ValueError /\ exists n : Z, sample_count s = Ok n /\ n < 0) \/
            (e = IndexError /\ sample_count s = Ok 0)).
  { intros body advance Hbody Hfail.
    destruct (sample_count s) as [n|e'] eqn:Hcount.
    - destruct (Z.lt_trichotomy n 0) as [Hneg|[Hzero|Hpos]].
      + rewrite (skeleton_negative s body n Hcount Hneg) in Hfail.
        injection Hfail as <-. right; left. eauto.
      + subst n. rewrite (skeleton_empty s body Hcount) in Hfail.
        injection Hfail as <-. right; right. eauto.
      + destruct (skeleton_returns s advance body n Hbody Hcount) as (X & Y & Hok & _);
          [lia|]. rewrite Hok in Hfail. discriminate.
    - rewrite (skeleton_raises s body e' Hcount) in Hfail. injection Hfail as <-.
      by left. }
  destruct (coefficient m) as [a2|] eqn:Hco.
  - rewrite (run_runge2nd m a2) in Hrun by done.
    destruct (fis_zero (fmul (of_Z 2) a2)) eqn:Hz.
    + left. rewrite runge2nd_skeleton in Hrun. unfold truediv in Hrun.
      rewrite Hz in Hrun. injection Hrun as <-. eauto.
    + right. rewrite (runge2nd_admissible s a2 Hz) in Hrun.
      by apply (Hskel _ _ (runge2nd_body_writes s a2)).
  - right. destruct m; try discriminate; simpl in Hrun.
    + by apply (Hskel _ _ (euler_body_writes s)).
    + by apply (Hskel _ _ (classic4th_body_writes s)).
Qed.

(** X3: a method raises ZeroDivisionError exactly when h is zero or its
    coefficient makes 2*a2 zero; it raises IndexError only at y[0], for a
    count of zero: the subscripts of the loop never leave the arrays. *)
Theorem zero_division_and_index_errors (s : Solver float) (m : scheme float) :
  (run s m = Raise ZeroDivisionError <->
   fis_zero (h s) = true \/
   exists a2, coefficient m = Some a2 /\ fis_zero (fmul (of_Z 2) a2) = true) /\
  (run s m = Raise IndexError -> sample_count s = Ok 0).
Proof.
  split; [split|].
  - intros Hrun.
    destruct (run_failure_cases s m _ Hrun) as [[_ Hco]|[Hcount|[[? _]|[? _]]]];
      try discriminate; [by right|].
    left. by destruct (sample_count_raises s _ Hcount) as [[_ Hz]|[_ [?|?]]].
  - intros Hcause. destruct (coefficient m) as [a2|] eqn:Hco.
    + rewrite (run_runge2nd m a2) by done. rewrite runge2nd_skeleton. unfold truediv.
      destruct (fis_zero (fmul (of_Z 2) a2)) eqn:Hz2; [done|]. cbn [bind].
      destruct Hcause as [Hz|(a2' & [= <-] & Hz2')]; [|congruence].
      apply skeleton_raises. unfold sample_count, truediv. by rewrite Hz.
    + destruct Hcause as [Hz|(a2' & ? & _)]; [|discriminate].
      apply run_raises_count; [by intros a2 Ha2; rewrite Hco in Ha2|].
      unfold sample_count, truediv. by rewrite Hz.
  - intros Hrun.
    destruct (run_failure_cases s m _ Hrun) as [[? _]|[Hcount|[[? _]|[_ Hzero]]]];
      try discriminate; [|done].
    by destruct (sample_count_raises s _ Hcount) as [[? _]|[_ [?|?]]].
Qed.

(** The same problem with the step size negated. *)
Definition reverse_step (s : Solver float) : Solver float :=
  {| f := f s; boundary := boundary s; final_x := final_x s;
     h := PrimFloat.opp (h s) |}.

Lemma binary_round_aux_abs (s1 s2 : bool) (mx ex : Z) (lx : location) :
  SFabs (binary_round_aux prec emax s1 mx ex lx) =
  SFabs (binary_round_aux prec emax s2 mx ex lx).
Proof.
  unfold binary_round_aux.
  destruct (shr_fexp prec emax mx ex lx) as [mrs' e'].
  destruct (shr_fexp prec emax _ e' loc_Exact) as [mrs'' e''].
  destruct (shr_m mrs''); [reflexivity | | reflexivity].
  by destruct (_ <=? _).
Qed.

Lemma SFdiv_opp_abs (D V : spec_float) :
  SFabs (SF64div D (SFopp V)) = SFabs (SF64div D V).
Proof.
  destruct D as [d|d| |d md ed], V as [v|v| |v mv ev]; try reflexivity.
  unfold SF64div, SFdiv, SFopp.
  destruct (SFdiv_core_binary prec emax (Z.pos md) ed (Z.pos mv) ev) as [[mz ez] lz].
  apply binary_round_aux_abs.
Qed.

Lemma SFeqb_opp_zero (V : spec_float) :
  SFeqb (SFopp V) (S754_zero false) = SFeqb V (S754_zero false).
Proof. by destruct V as [[|]|[|]| |[|] m e]. Qed.

Lemma sample_count_reverse (s : Solver float) :
  sample_count (reverse_step s) = sample_count s.
Proof.
  unfold sample_count, truediv. cbn [reverse_step h final_x boundary].
  assert (Hz : fis_zero (PrimFloat.opp (h s)) = fis_zero (h s)).
  { simpl. rewrite !FloatAxioms.eqb_spec, FloatAxioms.opp_spec.
    change (Prim2SF 0) with (S754_zero false). apply SFeqb_opp_zero. }
  rewrite Hz. destruct (fis_zero (h s)); [reflexivity|]. cbn [bind].
  assert (Habs : fabs (fdiv (fsub (final_x s) (boundary s).1) (PrimFloat.opp (h s))) =
                 fabs (fdiv (fsub (final_x s) (boundary s).1) (h s))).
  { apply Prim2SF_inj. simpl.
    rewrite !FloatAxioms.abs_spec, !FloatAxioms.div_spec, FloatAxioms.opp_spec.
    apply SFdiv_opp_abs. }
  by rewrite Habs.
Qed.

(** X8: the sign of h does not reach the grid: with -h in place of h the
    sample count is the same, and where a method returns X it returns the
    same X. *)
Theorem grid_ignores_sign_of_step (s : Solver float) (m : scheme float)
    (X Y : list float) :
  run s m = Ok (X, Y) ->
  sample_count (reverse_step s) = sample_count s /\
  exists Y', run (reverse_step s) m = Ok (X, Y').
Proof.
  intros Hrun. split; [apply sample_count_reverse|].
  destruct (run_inv s m X Y Hrun) as (n & Hcount & Hn & Hgrid & _).
  assert (Hcount' : sample_count (reverse_step s) = Ok n).
  { by rewrite sample_count_reverse. }
  destruct (run_returns (reverse_step s) m n (run_ok_admissible s m _ Hrun) Hcount' Hn)
    as (X' & Y' & Hrun' & Hgrid' & _).
  cbn [reverse_step final_x boundary] in Hgrid'.
  rewrite Hgrid in Hgrid'. injection Hgrid' as <-. by exists Y'.
Qed.

Lemma SFsub_diag (A : spec_float) : SFfinite A -> SFis_zero (SF64sub A A).
Proof.
  destruct A as [[|]|a| |a m e]; try done. intros _.
  unfold SF64sub, SFsub. rewrite Z.sub_diag. exact I.
Qed.

(** X7: an interval of length zero (x_final = x0, finite) with a step that
    is neither zero nor NaN: every method returns one sample, x0 and y0,
    and takes no step. *)
Theorem empty_interval_single_sample (s : Solver float) (m : scheme float) :
  is_finite (boundary s).1 -> final_x s = (boundary s).1 ->
  fis_zero (h s) = false -> ~ is_nan (h s) -> admissible m ->
  exists first,
    run s m = Ok ([first], [(boundary s).2]) /\
    PrimFloat.eqb first (boundary s).1 = true.
Proof.
  intros Hx0 Hsame Hz Hnan Hadm.
  assert (Hdelta : SFis_zero (Prim2SF (fsub (final_x s) (boundary s).1))).
  { rewrite Hsame. simpl. rewrite FloatAxioms.sub_spec. by apply SFsub_diag. }
  assert (Hcount : sample_count s = Ok 1).
  { unfold sample_count, truediv. rewrite Hz. cbn [bind].
    assert (Hone : fadd (fabs (fdiv (fsub (final_x s) (boundary s).1) (h s))) (of_Z 1) =
                   1%float).
    { apply Prim2SF_inj. simpl fadd. simpl fabs. simpl fdiv.
      rewrite FloatAxioms.add_spec, FloatAxioms.abs_spec, FloatAxioms.div_spec.
      assert (Hq : SFis_zero (SF64div (Prim2SF (fsub (final_x s) (boundary s).1))
                                      (Prim2SF (h s)))).
      { apply SFdiv_zero_l; [done|].
        unfold is_nan in Hnan. simpl in Hz. rewrite FloatAxioms.eqb_spec in Hz.
        destruct (Prim2SF (h s)) as [c|c| |c mc ec]; done. }
      destruct (SF64div _ _); done. }
    rewrite Hone. reflexivity. }
  destruct (run_returns s m 1 Hadm Hcount) as (X & Y & Hrun & Hgrid & HlenX & HlenY & Hy0 & _);
    [lia|].
  destruct (linspace_first _ _ 1 X Hgrid) as (first & Hfirst & Heq); [lia | done | | by left |].
  { unfold is_finite. by destruct (Prim2SF (fsub (final_x s) (boundary s).1)). }
  destruct X as [|x0 [|x1 X]]; try discriminate. injection Hfirst as ->.
  destruct Y as [|y0 [|y1 Y]]; try discriminate. injection Hy0 as ->.
  by exists first.
Qed.

(** The truncated count follows the rounded quotient, not the exact one:
    with x_final just below 1 and h = 1 the operand rounds up to 2. *)
Example rounded_operand_adds_a_sample :
  sample_count (growth 0x1.fffffffffffffp-1 1) = Ok 2 /\
  count_operand (growth 0x1.fffffffffffffp-1 1) = 2%float.
Proof. split; by_computation. Qed.

Lemma sample_count_truncates_witness :
  exists n : Z,
    sample_count (growth 7 4) = Ok n /\ 1 <= n /\
    length [0; 7]%float = Z.to_nat n /\ length [1; 5]%float = Z.to_nat n /\
    fis_zero (h (growth 7 4)) = false /\
    to_int (count_operand (growth 7 4)) = Ok n /\
    (inject_Z n <= float_value (count_operand (growth 7 4)))%Q /\
    (float_value (count_operand (growth 7 4)) < inject_Z n + 1)%Q.
Proof. apply (sample_count_truncates (growth 7 4) Euler). by_computation. Defined.

Lemma grid_of_every_method_witness :
  exists n : Z,
    sample_count (growth 1 0.5) = Ok n /\ 1 <= n /\
    length [0; 0.5; 1]%float = Z.to_nat n /\
    length [1; 1.625; 2.640625]%float = Z.to_nat n /\
    (n = 1 \/ is_finite (spacing (growth 1 0.5) n) ->
     exists first, [0; 0.5; 1]%float !! 0%nat = Some first /\
                   PrimFloat.eqb first (boundary (growth 1 0.5)).1 = true) /\
    (2 <= n ->
     [0; 0.5; 1]%float !! (Z.to_nat n - 1)%nat = Some (final_x (growth 1 0.5)) /\
     forall i : nat, (i < Z.to_nat n - 1)%nat ->
       [0; 0.5; 1]%float !! i =
       Some (fadd (linspace_scale (boundary (growth 1 0.5)).1 (final_x (growth 1 0.5)) n
                     (of_Z (Z.of_nat i)))
                  (boundary (growth 1 0.5)).1)).
Proof. apply (grid_of_every_method (growth 1 0.5) Heun). by_computation. Defined.

Lemma grid_ignores_sign_of_step_witness :
  sample_count (reverse_step (growth 1 0.5)) = sample_count (growth 1 0.5) /\
  exists Y', run (reverse_step (growth 1 0.5)) Euler = Ok ([0; 0.5; 1]%float, Y').
Proof.
  apply (grid_ignores_sign_of_step (growth 1 0.5) Euler [0; 0.5; 1]%float
           [1; 1.5; 2.25]%float).
  by_computation.
Defined.

Lemma empty_interval_single_sample_witness :
  exists first,
    run (growth 0 0.5) Heun = Ok ([first], [(boundary (growth 0 0.5)).2]) /\
    PrimFloat.eqb first (boundary (growth 0 0.5)).1 = true.
Proof.
  apply (empty_interval_single_sample (growth 0 0.5) Heun).
  - by_computation.
  - reflexivity.
  - by_computation.
  - intros Hnan. vm_compute in Hnan. discriminate Hnan.
  - exact heun_is_admissible.
Defined.
